(** * Multi: a Flask front end over yt-dlp

    A shallow embedding of the original logic of [main.py]: the time-format
    validator, the file-name sanitizer, the format normalizer
    ([process_formats]), the progress hook, the download orchestrator
    ([download_video]) and the [/start_download] handler.

    Conventions of the embedding.
    - A Python [str] is a Rocq [string]; a character is a code point
      below 256, so that [ascii] 0..127 is ASCII and 128..255 is the
      Latin-1 supplement.
    - Python numbers that may be floats (bit rates, sizes, byte counts,
      speeds) are rationals [Q] holding the exact value of the float;
      float operations round with [rnd], binary64 round-to-nearest-even
      with an unbounded exponent range.
    - [None] is [option]'s [None].
    - The process-wide dictionaries [progress_data] and [video_store] are
      [gmap]s; the dictionary [dedup] of [process_formats], whose
      iteration order matters, is an association list.
    - yt-dlp, ffmpeg, the clock and the file system are the environment:
      each is an explicit argument and every effect is recorded in a
      trace of events. *)

From Stdlib Require Import ZArith QArith Qround Qabs Qpower Ascii String List
  Lia Lqa DecimalString Sorting.Sorted.
From stdpp Require Import gmap strings list.

Local Open Scope Z_scope.

(** ** Strings *)

Definition code (c : ascii) : N := N_of_ascii c.

(** [\d] of [re] on a [str] pattern: the decimal digits.  Below code point
    256 these are '0'..'9'. *)
Definition is_digit (c : ascii) : bool :=
  ((48 <=? code c) && (code c <=? 57))%N.

(** [str.isspace] below code point 256: TAB..CR, FS..US, space, NEL and
    the no-break space. *)
Definition is_space (c : ascii) : bool :=
  (((9 <=? code c) && (code c <=? 13)) || ((28 <=? code c) && (code c <=? 32))
   || (code c =? 133) || (code c =? 160))%N.

Definition is_upper_az (c : ascii) : bool := ((65 <=? code c) && (code c <=? 90))%N.
Definition is_lower_az (c : ascii) : bool := ((97 <=? code c) && (code c <=? 122))%N.

Definition str_empty (s : string) : bool :=
  match s with EmptyString => true | String _ _ => false end.

Fixpoint lstrip (s : string) : string :=
  match s with
  | EmptyString => EmptyString
  | String c s' => if is_space c then lstrip s' else s
  end.

Fixpoint rstrip (s : string) : string :=
  match s with
  | EmptyString => EmptyString
  | String c s' =>
      let r := rstrip s' in
      if str_empty r && is_space c then EmptyString else String c r
  end.

(** [t.strip()] *)
Definition strip (s : string) : string := rstrip (lstrip s).

(** [s[:n]] *)
Fixpoint str_take (n : nat) (s : string) : string :=
  match n, s with
  | O, _ => EmptyString
  | _, EmptyString => EmptyString
  | S n', String c s' => String c (str_take n' s')
  end.

(** [str.lower] on one code point below 256: A..Z and the Latin-1 capitals
    (U+00C0..U+00DE but the multiplication sign U+00D7) move up by 32. *)
Definition lower_char (c : ascii) : ascii :=
  if (is_upper_az c
      || ((192 <=? code c) && (code c <=? 222) && negb (code c =? 215)))%N
  then ascii_of_N (code c + 32) else c.

Fixpoint lower (s : string) : string :=
  match s with
  | EmptyString => EmptyString
  | String c s' => String (lower_char c) (lower s')
  end.

(** ** Regular expressions, as far as [main.py] uses them *)

Inductive regex : Type :=
| Void : regex
| Eps : regex
| Cls : (ascii -> bool) -> regex
| Seq : regex -> regex -> regex
| Alt : regex -> regex -> regex
| Star : regex -> regex.

(** [r+], [r?], [r{n}] and [r{m,n}] *)
Definition Plus (r : regex) : regex := Seq r (Star r).
Definition Opt (r : regex) : regex := Alt Eps r.

Fixpoint rep_exact (r : regex) (n : nat) : regex :=
  match n with
  | O => Eps
  | S n' => Seq r (rep_exact r n')
  end.

Fixpoint rep_upto (r : regex) (n : nat) : regex :=
  match n with
  | O => Eps
  | S n' => Opt (Seq r (rep_upto r n'))
  end.

Definition rep_range (r : regex) (m n : nat) : regex :=
  Seq (rep_exact r m) (rep_upto r (n - m)).

Definition Chr (c : ascii) : regex := Cls (Ascii.eqb c).

Fixpoint nullable (r : regex) : bool :=
  match r with
  | Void => false
  | Eps => true
  | Cls _ => false
  | Seq a b => nullable a && nullable b
  | Alt a b => nullable a || nullable b
  | Star _ => true
  end.

Fixpoint deriv (c : ascii) (r : regex) : regex :=
  match r with
  | Void => Void
  | Eps => Void
  | Cls p => if p c then Eps else Void
  | Seq a b =>
      if nullable a then Alt (Seq (deriv c a) b) (deriv c b)
      else Seq (deriv c a) b
  | Alt a b => Alt (deriv c a) (deriv c b)
  | Star a => Seq (deriv c a) (Star a)
  end.

(** Does the whole of [s] match [r]? *)
Fixpoint fullmatch (r : regex) (s : string) : bool :=
  match s with
  | EmptyString => nullable r
  | String c s' => fullmatch (deriv c r) s'
  end.

(** [s] without a final line feed, when it has one. *)
Fixpoint chop_newline (s : string) : option string :=
  match s with
  | EmptyString => None
  | String c EmptyString => if (code c =? 10)%N then Some EmptyString else None
  | String c s' => option_map (String c) (chop_newline s')
  end.

(** [bool (re.match('^' r '$', s))]: [re.match] anchors at the start, [^]
    agrees, and [$] holds at the end of [s] and also just before a line
    feed that ends [s]. *)
Definition re_match_anchored (r : regex) (s : string) : bool :=
  fullmatch r s
  || match chop_newline s with
     | Some s' => fullmatch r s'
     | None => false
     end.

(** [re.sub(cls, repl, s)] for a pattern that is one character class:
    every character of the class is a match of its own. *)
Fixpoint re_sub_class (cls : ascii -> bool) (repl : string) (s : string) : string :=
  match s with
  | EmptyString => EmptyString
  | String c s' =>
      if cls c then (repl ++ re_sub_class cls repl s')%string
      else String c (re_sub_class cls repl s')
  end.

(** ** [valid_time_format] *)

Definition digit : regex := Cls is_digit.

(** [\d+] *)
Definition re_seconds : regex := Plus digit.

(** [\d{1,2}(:\d{2}){0,2}] *)
Definition re_clock : regex :=
  Seq (rep_range digit 1 2) (rep_range (Seq (Chr ":") (rep_exact digit 2)) 0 2).

Definition valid_time_format (t : option string) : bool :=
  match t with
  | None => false
  | Some t =>
      let t := strip t in
      if re_match_anchored re_seconds t then true
      else re_match_anchored re_clock t
  end.

(** ** [sanitize_filename] *)

(** The class [[a-zA-Z0-9_\-\. ]] and its complement [[^...]]. *)
Definition filename_char (c : ascii) : bool :=
  is_lower_az c || is_upper_az c || is_digit c
  || (code c =? 95)%N || (code c =? 45)%N || (code c =? 46)%N || (code c =? 32)%N.

Definition sanitize_filename (name : string) : string :=
  let cleaned := re_sub_class (fun c => negb (filename_char c)) "_" name in
  str_take 200 cleaned.

(** ** binary64 arithmetic on exact values *)

(** Nearest integer, ties to the even one. *)
Definition round_half_even (q : Q) : Z :=
  let f := Qfloor q in
  match Qcompare (q - inject_Z f) (1 # 2) with
  | Lt => f
  | Gt => f + 1
  | Eq => if Z.even f then f else f + 1
  end.

Definition pow2 (e : Z) : Q := Qpower 2 e.

(** For [x > 0], the exponent [e] of the last place of the binary64
    significand of [x]: [2^52 <= x / 2^e < 2^53]. *)
Definition ulp_exp (x : Q) : Z :=
  let k := Z.log2 (Qnum x) - Z.log2 (Zpos (Qden x)) in
  (if Qle_bool (pow2 k) x then k else k - 1) - 52.

(** Rounding to the nearest binary64 value, ties to even.  The exponent
    range is unbounded: overflow (beyond 1.8e308) and underflow are not
    modelled. *)
Definition rnd (x : Q) : Q :=
  if Qeq_bool x 0 then 0
  else
    let e := ulp_exp (Qabs x) in
    Qred (inject_Z (round_half_even (x / pow2 e)) * pow2 e).

Definition fdiv (x y : Q) : Q := rnd (x / y).
Definition fmul (x y : Q) : Q := rnd (x * y).
Definition fsub (x y : Q) : Q := rnd (x - y).

(** [int(x)]: truncation toward zero. *)
Definition py_int (x : Q) : Z := Z.quot (Qnum x) (Zpos (Qden x)).

(** Python truthiness of a number and of an optional number. *)
Definition nonzero (x : Q) : bool := negb (Qeq_bool x 0).

Definition truthy_num (x : option Q) : bool :=
  match x with Some v => nonzero v | None => false end.

(** [a or b] where [a] is a number or [None] *)
Definition num_or (a b : option Q) : option Q := if truthy_num a then a else b.

Definition Qlt_bool (x y : Q) : bool :=
  match Qcompare x y with Lt => true | _ => false end.

(** ** Rendering numbers *)

(** [str(n)] for an [int] *)
Definition str_of_Z (z : Z) : string := NilZero.string_of_int (Z.to_int z).

Definition two_digits (z : Z) : string :=
  if z <? 10 then ("0" ++ str_of_Z z)%string else str_of_Z z.

(** [f"{x:.2f}"]: the exact value of [x], correctly rounded to two
    decimals, ties to even. *)
Definition format_2f (x : Q) : string :=
  let c := round_half_even (Qabs x * 100) in
  ((if Qlt_bool x 0 then "-" else "")
   ++ str_of_Z (c / 100) ++ "." ++ two_digits (c mod 100))%string.

(** ** [process_formats] *)

(** A format dictionary as yt-dlp returns it; a key that is missing and a
    key that holds [None] read the same through [f.get]. *)
Record RawFormat : Type := {
  raw_format_id : option string;
  raw_ext : option string;
  raw_height : option Z;
  raw_tbr : option Q;
  raw_abr : option Q;
  raw_filesize : option Q;
  raw_filesize_approx : option Q;
  raw_format_note : option string;
  raw_format : option string;
  raw_url : option string
}.

(** The dictionary [fmt] built for a candidate; [label] is the key added
    by the last loop of [process_formats]. *)
Record Format : Type := {
  format_id : option string;
  height : option Z;
  ext : string;
  tbr : Q;
  filesize : Q;
  format_note : string;
  url : option string;
  label : option string
}.

(** [a or b] on optional strings, and [a or ''] *)
Definition str_or (a b : option string) : option string :=
  match a with
  | Some s => if str_empty s then b else a
  | None => b
  end.

Definition str_or_empty (a : option string) : string :=
  match a with Some s => s | None => EmptyString end.

Definition num_or_zero (a : option Q) : Q :=
  match a with Some v => if nonzero v then v else 0%Q | None => 0%Q end.

Definition allowed_exts : list string := ["mp4"; "m4a"; "webm"; "mkv"; "mp3"]%string.

Definition str_in (s : string) (l : list string) : bool := existsb (String.eqb s) l.

(** The body of the first loop: [None] is [continue]. *)
Definition candidate (f : RawFormat) : option Format :=
  let ext := lower (str_or_empty (raw_ext f)) in
  if negb (str_in ext allowed_exts) then None
  else Some {|
    format_id := raw_format_id f;
    height := raw_height f;
    ext := ext;
    tbr := num_or_zero (num_or (raw_tbr f) (raw_abr f));
    filesize := num_or_zero (num_or (raw_filesize f) (raw_filesize_approx f));
    format_note := str_or_empty (str_or (raw_format_note f) (raw_format f));
    url := raw_url f;
    label := None
  |}.

Fixpoint candidates (raw_formats : list RawFormat) : list Format :=
  match raw_formats with
  | [] => []
  | f :: rest =>
      match candidate f with
      | Some fmt => fmt :: candidates rest
      | None => candidates rest
      end
  end.

(** [f['height'] or 0] *)
Definition height_or_zero (f : Format) : Z :=
  match height f with Some h => h | None => 0 end.

(** [f['height']] as a condition *)
Definition height_truthy (f : Format) : bool :=
  match height f with Some h => negb (h =? 0) | None => false end.

Definition dedup_key : Type := (Z * string)%type.

Definition key_of (f : Format) : dedup_key := (height_or_zero f, ext f).

Definition key_eqb (a b : dedup_key) : bool :=
  (fst a =? fst b) && String.eqb (snd a) (snd b).

(** A [dict] in insertion order: [dict_get] is [d.get(k)], [dict_set] is
    [d[k] = v], which keeps the place of a key that is already there and
    puts a new key last. *)
Fixpoint dict_get (k : dedup_key) (d : list (dedup_key * Format)) : option Format :=
  match d with
  | [] => None
  | (k', v) :: d' => if key_eqb k k' then Some v else dict_get k d'
  end.

Fixpoint dict_set (k : dedup_key) (v : Format) (d : list (dedup_key * Format))
  : list (dedup_key * Format) :=
  match d with
  | [] => [(k, v)]
  | (k', v') :: d' =>
      if key_eqb k k' then (k', v) :: d' else (k', v') :: dict_set k v d'
  end.

Definition dict_values (d : list (dedup_key * Format)) : list Format := map snd d.

(** The body of the second loop. *)
Definition dedupe_step (dedup : list (dedup_key * Format)) (f : Format)
  : list (dedup_key * Format) :=
  let key := key_of f in
  match dict_get key dedup with
  | None => dict_set key f dedup
  | Some prev =>
      if Qlt_bool (filesize prev) (filesize f) then dict_set key f dedup
      else if Qlt_bool (tbr prev) (tbr f) then dict_set key f dedup
      else dedup
  end.

Definition dedupe (cands : list Format) : list (dedup_key * Format) :=
  fold_left dedupe_step cands [].

(** [sort_key]: [(is_audio, -h, -tbr, -filesize)] *)
Definition sort_key (f : Format) : Z * Z * Q * Q :=
  let h := height_or_zero f in
  let is_audio := match height f with None => 1 | Some _ => 0 end in
  (is_audio, - h, (- tbr f)%Q, (- filesize f)%Q).

(** [a < b] on the key tuples: the first component that differs decides. *)
Definition key_lt (a b : Z * Z * Q * Q) : bool :=
  let '(a1, a2, a3, a4) := a in
  let '(b1, b2, b3, b4) := b in
  if negb (a1 =? b1) then a1 <? b1
  else if negb (a2 =? b2) then a2 <? b2
  else if negb (Qeq_bool a3 b3) then Qlt_bool a3 b3
  else Qlt_bool a4 b4.

(** [list.sort(key=sort_key)] is stable and compares keys with [<] only;
    on a total preorder its result is the one that stable insertion
    gives: an element goes before the first one that is not smaller. *)
Fixpoint insert_by_key (f : Format) (l : list Format) : list Format :=
  match l with
  | [] => [f]
  | g :: l' =>
      if key_lt (sort_key g) (sort_key f) then g :: insert_by_key f l'
      else f :: g :: l'
  end.

Fixpoint sort_by_key (l : list Format) : list Format :=
  match l with
  | [] => []
  | f :: l' => insert_by_key f (sort_by_key l')
  end.

(** The separator [' • ']: the bullet U+2022 is the one character of
    [main.py] above code point 255 and is written as its UTF-8 bytes. *)
Definition bullet_sep : string :=
  String " " (String (ascii_of_N 226) (String (ascii_of_N 128)
    (String (ascii_of_N 162) (String " " EmptyString)))).

(** [sep.join(parts)] *)
Fixpoint join (sep : string) (parts : list string) : string :=
  match parts with
  | [] => EmptyString
  | [p] => p
  | p :: rest => (p ++ sep ++ join sep rest)%string
  end.

Definition or_str (a b : string) : string := if str_empty a then b else a.

Definition note_of (f : Format) : string :=
  if height_truthy f
  then or_str (format_note f) (str_of_Z (height_or_zero f) ++ "p")%string
  else or_str (format_note f) "audio"%string.

Definition size_text_of (f : Format) : string :=
  if nonzero (filesize f)
  then (format_2f (fdiv (fdiv (filesize f) 1024) 1024) ++ " MB")%string
  else "Size unknown"%string.

Definition br_text_of (f : Format) : string :=
  if nonzero (tbr f) then ("~" ++ str_of_Z (py_int (tbr f)) ++ " kbps")%string
  else EmptyString.

(** The body of the last loop. *)
Definition with_label (f : Format) : Format :=
  let note := note_of f in
  let size_text := size_text_of f in
  let br_text := br_text_of f in
  let parts := [note; ext f] in
  let parts := if str_empty br_text then parts else parts ++ [br_text] in
  let parts := parts ++ [size_text] in
  {| format_id := format_id f; height := height f; ext := ext f; tbr := tbr f;
     filesize := filesize f; format_note := format_note f; url := url f;
     label := Some (join bullet_sep (filter (fun p => negb (str_empty p)) parts)) |}.

Definition process_formats (raw_formats : list RawFormat) : list Format :=
  match raw_formats with
  | [] => []
  | _ =>
      let out := dict_values (dedupe (candidates raw_formats)) in
      map with_label (sort_by_key out)
  end.

(** ** The progress store and [progress_hook] *)

(** A value of [progress_data].  A key the dictionary does not carry is
    [None]; ['eta'], which a downloading record always carries, is also
    [None] when it holds [None]. *)
Record ProgressRecord : Type := {
  status : string;
  percent : option Z;
  speed : option Q;
  speed_text : option string;
  eta : option Q;
  eta_text : option string;
  message : option string;
  attempt : option Z
}.

(** The dictionary [d] that yt-dlp hands to a progress hook.  The numbers
    are numbers when present; [tick_downloaded] is [None] when the key is
    missing. *)
Record Tick : Type := {
  tick_status : string;
  tick_total_bytes : option Q;
  tick_total_bytes_estimate : option Q;
  tick_downloaded : option Q;
  tick_speed : option Q;
  tick_eta : option Q;
  tick_error : option string
}.

(** [f"{x:3.1f}"] and [f"{x:.1f}"]: one decimal; the minimal width 3 never
    pads. *)
Definition format_1f (x : Q) : string :=
  let c := round_half_even (Qabs x * 10) in
  ((if Qlt_bool x 0 then "-" else "")
   ++ str_of_Z (c / 10) ++ "." ++ str_of_Z (c mod 10))%string.

Fixpoint human_size_loop (units : list string) (n : Q) : string :=
  match units with
  | [] => (format_1f n ++ " PB")%string
  | unit :: rest =>
      if Qlt_bool n 1024 then (format_1f n ++ " " ++ unit)%string
      else human_size_loop rest (fdiv n 1024)
  end.

(** [_human_size] *)
Definition human_size (n : Q) : string :=
  if Qle_bool n 0 then "0 B"%string
  else human_size_loop ["B"; "KB"; "MB"; "GB"; "TB"]%string n.

(** [_human_time], on a value that is not [None] *)
Definition human_time (s : Q) : string :=
  let s := py_int s in
  if s <? 0 then "Unknown"%string
  else if s <? 60 then (str_of_Z s ++ "s")%string
  else
    let m := s / 60 in
    let sec := s mod 60 in
    if m <? 60 then (str_of_Z m ++ "m " ++ str_of_Z sec ++ "s")%string
    else (str_of_Z (m / 60) ++ "h " ++ str_of_Z (m mod 60) ++ "m")%string.

Definition Qmax0 (x : Q) : Q := if Qlt_bool 0 x then x else 0%Q.

(** [int(downloaded / total * 100) if total else 0] *)
Definition percent_of (downloaded : Q) (total : option Q) : Z :=
  match total with
  | Some t => if nonzero t then py_int (fmul (fdiv downloaded t) 100) else 0
  | None => 0
  end.

Definition downloading_record (d : Tick) : ProgressRecord :=
  let total := num_or (tick_total_bytes d) (tick_total_bytes_estimate d) in
  let downloaded := match tick_downloaded d with Some v => v | None => 0%Q end in
  let speed := num_or_zero (tick_speed d) in
  let percent := percent_of downloaded total in
  let eta :=
    if truthy_num total && nonzero speed then
      match total with
      | Some t =>
          let remain := Qmax0 (fsub t downloaded) in
          Some (inject_Z (py_int (fdiv remain speed)))
      | None => None
      end
    else tick_eta d in
  {| status := "downloading";
     percent := Some percent;
     speed := Some speed;
     speed_text := Some (if nonzero speed then (human_size speed ++ "/s")%string
                         else "0 B/s"%string);
     eta := eta;
     eta_text := Some (match eta with
                       | Some e => human_time e
                       | None => "Unknown"%string
                       end);
     message := None;
     attempt := None |}.

Definition finished_record : ProgressRecord :=
  {| status := "finished"; percent := Some 100; speed := Some 0%Q;
     speed_text := Some "0 B/s"%string; eta := Some 0%Q;
     eta_text := Some "0s"%string; message := None; attempt := None |}.

Definition hook_error_record (d : Tick) : ProgressRecord :=
  {| status := "error"; percent := None; speed := None; speed_text := None;
     eta := None; eta_text := None;
     message := Some (match tick_error d with
                      | Some m => m
                      | None => "Unknown error"%string
                      end);
     attempt := None |}.

(** What one call of [progress_hook] stores, if anything. *)
Definition hook_record (d : Tick) : option ProgressRecord :=
  if String.eqb (tick_status d) "downloading" then Some (downloading_record d)
  else if String.eqb (tick_status d) "finished" then Some finished_record
  else if String.eqb (tick_status d) "error" then Some (hook_error_record d)
  else None.

(** Job identifiers: [session.get('video_id')] may be [None], which is a
    dictionary key like any other. *)
Definition job_id : Type := option string.

(** The arguments of [download_video]. *)
Record job : Type := {
  job_url : option string;
  job_format_id : option string;
  job_video_id : job_id;
  job_title : string;
  job_height : option Z;
  job_extract_audio : bool;
  job_start_time : option string;
  job_end_time : option string
}.

(** What the program does to its environment, in order. *)
Inductive event : Type :=
| EvWrite (video_id : job_id) (r : ProgressRecord)
| EvSetPercent (video_id : job_id) (p : Z)
| EvDownload (attempt : Z) (url : option string) (fmt : option string)
    (outtmpl : string) (audio : bool)
| EvTrim (cmd : list string)
| EvReplace (src dst : string)
| EvSleep (seconds : Z)
| EvFlash (msg : string)
| EvSpawn (j : job).

Record world : Type := {
  progress_data : gmap job_id ProgressRecord;
  trace : list event
}.

Definition emit (e : event) (w : world) : world :=
  {| progress_data := progress_data w; trace := trace w ++ [e] |}.

(** [progress_data[video_id] = r] *)
Definition write (video_id : job_id) (r : ProgressRecord) (w : world) : world :=
  {| progress_data := <[video_id := r]> (progress_data w);
     trace := trace w ++ [EvWrite video_id r] |}.

Definition progress_hook (video_id : job_id) (d : Tick) (w : world) : world :=
  match hook_record d with
  | Some r => write video_id r w
  | None => w
  end.

(** ** [trim_media] and [download_video] *)

Definition DOWNLOAD_FOLDER : string := "downloads".

(** [os.path.join] with the POSIX separator. *)
Definition path_join (dir name : string) : string := (dir ++ "/" ++ name)%string.

(** [str(x)] for a string or [None] inside an f-string. *)
Definition fstr (s : option string) : string :=
  match s with Some v => v | None => "None"%string end.

Definition truthy_str (s : option string) : bool :=
  match s with Some v => negb (str_empty v) | None => false end.

(** The command line [trim_media] builds. *)
Definition trim_cmd (input_path output_path : string)
    (start_time end_time : option string) : list string :=
  let cmd := ["ffmpeg"; "-y"; "-i"; input_path]%string in
  let cmd := if truthy_str start_time then cmd ++ ["-ss"%string; fstr start_time] else cmd in
  let cmd :=
    if truthy_str end_time then
      if truthy_str start_time then cmd ++ ["-to"%string; fstr end_time]
      else cmd ++ ["-t"%string; fstr end_time]
    else cmd in
  cmd ++ [output_path].

(** A call into the environment returns or raises; [Raised] carries
    [str(e)]. *)
Inductive outcome (A : Type) : Type :=
| Returned (a : A)
| Raised (msg : string).
Arguments Returned {A} a.
Arguments Raised {A} msg.

(** What the environment does during one pass through the body of the
    [try]: the hook calls [ydl.download] makes and how it ends, whether
    ffmpeg exits with status 0 if [trim_media] runs, and how [os.replace]
    ends if it runs. *)
Record attempt_run : Type := {
  run_ticks : list Tick;
  run_download : outcome unit;
  run_trim : outcome bool;
  run_replace : outcome unit
}.

(** The environment of a job: its behaviour at each attempt. *)
Definition engine : Type := Z -> attempt_run.

Definition resolution_of (height : option Z) (format_id : option string) : string :=
  match height with
  | Some h => if negb (h =? 0) then (str_of_Z h ++ "p")%string else fstr format_id
  | None => fstr format_id
  end.

Definition max_attempts : Z := 3.

Definition error_record (msg : string) (attempt : option Z) : ProgressRecord :=
  {| status := "error"; percent := None; speed := None; speed_text := None;
     eta := None; eta_text := None; message := Some msg; attempt := attempt |}.

Definition starting_record : ProgressRecord :=
  {| status := "starting"; percent := Some 0; speed := None; speed_text := None;
     eta := None; eta_text := None; message := None; attempt := None |}.

(** The body of the [try]: [None] when it reaches [break], [Some msg] when
    an exception with [str(e) = msg] leaves it. *)
Definition try_body (j : job) (run : attempt_run) (attempt : Z) (w : world)
  : option string * world :=
  let safe_title := sanitize_filename (job_title j) in
  let resolution := resolution_of (job_height j) (job_format_id j) in
  let filename_template :=
    path_join DOWNLOAD_FOLDER (safe_title ++ "_" ++ resolution ++ ".%(ext)s")%string in
  let w := emit (EvDownload attempt (job_url j) (job_format_id j)
                   filename_template (job_extract_audio j)) w in
  let w := fold_left (fun w d => progress_hook (job_video_id j) d w) (run_ticks run) w in
  match run_download run with
  | Raised msg => (Some msg, w)
  | Returned _ =>
      if (truthy_str (job_start_time j) || truthy_str (job_end_time j))
         && negb (job_extract_audio j)
      then
        let original_file :=
          path_join DOWNLOAD_FOLDER (safe_title ++ "_" ++ resolution ++ ".mp4")%string in
        let trimmed_file :=
          path_join DOWNLOAD_FOLDER (safe_title ++ "_" ++ resolution ++ "_trimmed.mp4")%string in
        let w := emit (EvTrim (trim_cmd original_file trimmed_file
                                 (job_start_time j) (job_end_time j))) w in
        match run_trim run with
        | Raised msg => (Some msg, w)
        | Returned false => (None, w)
        | Returned true =>
            let w := emit (EvReplace trimmed_file original_file) w in
            match run_replace run with
            | Raised msg => (Some msg, w)
            | Returned _ => (None, w)
            end
        end
      else (None, w)
  end.

(** How the [for] loop is left. *)
Inductive loop_exit : Type :=
| Break
| Return
| Exhausted.

(** [for attempt in attempts: try: ... except Exception as e: ...] *)
Fixpoint retry_loop (j : job) (env : engine) (attempts : list Z) (w : world)
  : loop_exit * world :=
  match attempts with
  | [] => (Exhausted, w)
  | attempt :: rest =>
      match try_body j (env attempt) attempt w with
      | (None, w) => (Break, w)
      | (Some msg, w) =>
          let w := write (job_video_id j) (error_record msg (Some attempt)) w in
          if attempt =? max_attempts then (Return, w)
          else
            let backoff := 3 * attempt in
            let w := emit (EvSleep backoff) w in
            let w := write (job_video_id j) starting_record w in
            retry_loop j env rest w
      end
  end.

(** [range(1, n + 1)] *)
Definition range_from_1 (n : Z) : list Z := map Z.of_nat (seq 1 (Z.to_nat n)).

Definition set_percent (r : ProgressRecord) (p : Z) : ProgressRecord :=
  {| status := status r; percent := Some p; speed := speed r;
     speed_text := speed_text r; eta := eta r; eta_text := eta_text r;
     message := message r; attempt := attempt r |}.

(** The statement after the loop. *)
Definition ensure_percent (video_id : job_id) (w : world) : world :=
  match progress_data w !! video_id with
  | Some r =>
      if String.eqb (status r) "finished" then
        {| progress_data := <[video_id := set_percent r 100]> (progress_data w);
           trace := trace w ++ [EvSetPercent video_id 100] |}
      else w
  | None => w
  end.

Definition ffmpeg_missing_msg : string := "ffmpeg not found - cannot extract audio (mp3).".

Definition download_video (FFMPEG_AVAILABLE : bool) (env : engine) (j : job) (w : world)
  : world :=
  if job_extract_audio j && negb FFMPEG_AVAILABLE then
    write (job_video_id j) (error_record ffmpeg_missing_msg None) w
  else
    match retry_loop j env (range_from_1 max_attempts) w with
    | (Return, w) => w
    | (_, w) => ensure_percent (job_video_id j) w
    end.

(** ** [start_download] *)

Record request : Type := {
  form_format_id : option string;
  form_extract_audio : option string;
  form_start_time : option string;
  form_end_time : option string;
  session_video_url : option string;
  session_video_id : option string;
  session_video_title : option string
}.

Inductive response : Type :=
| RedirectSelectFormat
| RedirectDownloadFile (filename : string)
| RedirectProgress (video_id : job_id) (filename : string)
| ServerError.

Definition opt_str_eqb (a b : option string) : bool :=
  match a, b with
  | Some x, Some y => String.eqb x y
  | None, None => true
  | _, _ => false
  end.

(** [next((f for f in formats if f.get('format_id') == format_id), None)] *)
Definition find_format (formats : list Format) (fid : option string) : option Format :=
  find (fun f => opt_str_eqb (format_id f) fid) formats.

(** The handler: [video_store] maps a job to its ['formats'], [file_exists]
    is [os.path.exists].  A title that is [None] makes [sanitize_filename]
    raise, which Flask answers with a server error.  [EvSpawn j] starts a
    thread that runs [download_video] on [j]. *)
Definition start_download (video_store : gmap job_id (list Format))
    (file_exists : string -> bool) (req : request) (w : world) : response * world :=
  let format_id := form_format_id req in
  let extract_audio := opt_str_eqb (form_extract_audio req) (Some "yes"%string) in
  let start_time := form_start_time req in
  let end_time := form_end_time req in
  if truthy_str start_time && negb (valid_time_format start_time) then
    (RedirectSelectFormat, emit (EvFlash "Invalid start time format. Use HH:MM:SS") w)
  else if truthy_str end_time && negb (valid_time_format end_time) then
    (RedirectSelectFormat, emit (EvFlash "Invalid end time format. Use HH:MM:SS") w)
  else
    let video_id := session_video_id req in
    let formats := match video_store !! video_id with Some fs => fs | None => [] end in
    let selected_format := find_format formats format_id in
    let height := match selected_format with Some f => height f | None => None end in
    match session_video_title req with
    | None => (ServerError, w)
    | Some title =>
        let safe_title := sanitize_filename title in
        let resolution := resolution_of height format_id in
        let ext := if extract_audio then "mp3"%string else "mp4"%string in
        let filename := (safe_title ++ "_" ++ resolution ++ "." ++ ext)%string in
        let filepath := path_join DOWNLOAD_FOLDER filename in
        if file_exists filepath then (RedirectDownloadFile filename, w)
        else
          let w := write video_id starting_record w in
          let w := emit (EvSpawn {| job_url := session_video_url req;
                                    job_format_id := format_id;
                                    job_video_id := video_id;
                                    job_title := title;
                                    job_height := height;
                                    job_extract_audio := extract_audio;
                                    job_start_time := start_time;
                                    job_end_time := end_time |}) w in
          (RedirectProgress video_id filename, w)
    end.

(** ** [choose_720p_or_nearest] of [run_download_sample.py] *)

(** [f.get('height')] as a condition and as a number, on a dictionary of
    yt-dlp. *)
Definition raw_height_truthy (f : RawFormat) : bool :=
  match raw_height f with Some h => negb (h =? 0) | None => false end.

Definition raw_height_or_zero (f : RawFormat) : Z :=
  match raw_height f with Some h => h | None => 0 end.

(** [max(l, key=lambda x: x.get('height'))] on a list that starts with
    [best]: the first of the greatest. *)
Definition max_by_height (best : RawFormat) (l : list RawFormat) : RawFormat :=
  fold_left
    (fun best g => if raw_height_or_zero best <? raw_height_or_zero g then g else best)
    l best.

Definition has_height_720 (f : RawFormat) : bool :=
  match raw_height f with Some h => h =? 720 | None => false end.

Definition choose_720p_or_nearest (formats : list RawFormat) : option RawFormat :=
  match formats with
  | [] => None
  | _ =>
      match find has_height_720 formats with
      | Some f => Some f
      | None =>
          let candidates := List.filter raw_height_truthy formats in
          match candidates with
          | c :: cs =>
              let leq := List.filter (fun f => raw_height_or_zero f <=? 720) candidates in
              match leq with
              | l :: ls => Some (max_by_height l ls)
              | [] => Some (max_by_height c cs)
              end
          | [] => last formats
          end
      end
  end.

(** ** [progress_status] *)



(** ** [index] and [select_format] *)

(** A value of [video_store].  ['previews'] is a key that
    [generate_preview_route] adds; an entry without it reads as one with
    no preview. *)
Record VideoEntry : Type := {
  entry_formats : list Format;
  entry_title : option string;
  entry_thumbnail : option string;
  entry_duration : option Q;
  entry_url : option string;
  entry_previews : gmap string string
}.

(** What [extract_info] returns, as far as the application reads it. *)
Record VideoInfo : Type := {
  info_id : option string;
  info_title : option string;
  info_thumbnail : option string;
  info_duration : option Q;
  info_formats : list RawFormat
}.

Record Session : Type := {
  sess_video_url : option string;
  sess_video_title : option string;
  sess_video_id : option string
}.

(** The state the routes share: the session cookie of the client, the
    store of videos and the messages flashed so far. *)
Record app_state : Type := {
  app_session : Session;
  app_store : gmap job_id VideoEntry;
  app_flashes : list string
}.

Inductive page : Type :=
| RedirectIndex
| RedirectSelect
| RedirectStartDownload
| RenderIndex
| RenderSelectFormat (formats : list Format) (title thumbnail : option string)
    (duration : option Q) (video_id : string).

Definition flash (msg : string) (st : app_state) : app_state :=
  {| app_session := app_session st; app_store := app_store st;
     app_flashes := app_flashes st ++ [msg] |}.

(** [index]: [post] is [None] for a GET and the form's [url] for a POST;
    [extract_info] is yt-dlp. *)
Definition index (extract_info : string -> outcome VideoInfo)
    (post : option (option string)) (st : app_state) : page * app_state :=
  match post with
  | None => (RenderIndex, st)
  | Some form_url =>
      match form_url with
      | Some url =>
          if str_empty url then (RedirectIndex, flash "Please enter a video URL." st)
          else
            match extract_info url with
            | Raised e =>
                (RedirectIndex, flash ("Error fetching video info: " ++ e) st)
            | Returned info =>
                let vid := info_id info in
                let processed := process_formats (info_formats info) in
                (RedirectSelect,
                 {| app_session := {| sess_video_url := Some url;
                                      sess_video_title := info_title info;
                                      sess_video_id := vid |};
                    app_store :=
                      <[vid := {| entry_formats := processed;
                                  entry_title := info_title info;
                                  entry_thumbnail := info_thumbnail info;
                                  entry_duration := info_duration info;
                                  entry_url := Some url;
                                  entry_previews := ∅ |}]> (app_store st);
                    app_flashes := app_flashes st |})
            end
      | None => (RedirectIndex, flash "Please enter a video URL." st)
      end
  end.

(** [select_format]: [is_post] tells a POST from a GET. *)
Definition select_format (is_post : bool) (st : app_state) : page * app_state :=
  if is_post then (RedirectStartDownload, st)
  else
    match sess_video_id (app_session st) with
    | Some video_id =>
        if str_empty video_id
        then (RedirectIndex, flash "No video selected. Paste a URL first." st)
        else
          match app_store st !! Some video_id with
          | Some store_entry =>
              (RenderSelectFormat (entry_formats store_entry) (entry_title store_entry)
                 (entry_thumbnail store_entry) (entry_duration store_entry) video_id,
               st)
          | None => (RedirectIndex, flash "No video selected. Paste a URL first." st)
          end
    | None => (RedirectIndex, flash "No video selected. Paste a URL first." st)
    end.

(** ** The preview generator *)

Definition PREVIEW_FOLDER : string := path_join DOWNLOAD_FOLDER "previews".

(** The command line of [_generate_preview_ffmpeg]; [FFMPEG_PATH] is the
    binary found at start, if any. *)
Definition preview_cmd (FFMPEG_PATH : option string) (stream_url out_path : string)
    (duration : Z) : list string :=
  [(if truthy_str FFMPEG_PATH then fstr FFMPEG_PATH else "ffmpeg"); "-y"; "-i"; stream_url;
   "-t"; str_of_Z duration;
   "-c:v"; "libx264"; "-preset"; "veryfast"; "-c:a"; "aac"; "-b:a"; "128k";
   out_path]%string.

(** The environment of the preview generator: what a run of ffmpeg
    returns (its exit status being 0, or an exception such as the timeout
    of 120 seconds) and whether it leaves a file at the output path; what
    [extract_info] returns for the page of the video; whether [os.remove]
    raises. *)
Record preview_env : Type := {
  ffmpeg_run : list string -> outcome bool;
  ffmpeg_leaves_file : list string -> bool;
  re_extract : option string -> outcome (list RawFormat);
  remove_raises : string -> bool
}.

Inductive preview_event : Type :=
| PvExtract (url : option string)
| PvFfmpeg (cmd : list string)
| PvRemove (path : string).

(** The files that exist, the store and what has been done so far. *)
Record preview_world : Type := {
  pv_files : gset string;
  pv_store : gmap job_id VideoEntry;
  pv_trace : list preview_event
}.

Definition pv_emit (e : preview_event) (w : preview_world) : preview_world :=
  {| pv_files := pv_files w; pv_store := pv_store w; pv_trace := pv_trace w ++ [e] |}.

Definition file_exists_in (w : preview_world) (path : string) : bool :=
  bool_decide (path ∈ pv_files w).

(** [_generate_preview_ffmpeg]: the first component of its result. *)
Definition generate_preview_ffmpeg (FFMPEG_AVAILABLE : bool) (FFMPEG_PATH : option string)
    (env : preview_env) (stream_url out_path : string) (duration : Z)
    (w : preview_world) : bool * preview_world :=
  if negb FFMPEG_AVAILABLE then (false, w)
  else
    let cmd := preview_cmd FFMPEG_PATH stream_url out_path duration in
    let w := pv_emit (PvFfmpeg cmd) w in
    let w :=
      if ffmpeg_leaves_file env cmd
      then {| pv_files := {[out_path]} ∪ pv_files w; pv_store := pv_store w;
              pv_trace := pv_trace w |}
      else w in
    match ffmpeg_run env cmd with
    | Returned ok => (ok, w)
    | Raised _ => (false, w)
    end.

Definition find_raw_format (formats : list RawFormat) (fid : string) : option RawFormat :=
  find (fun f => opt_str_eqb (raw_format_id f) (Some fid)) formats.

Definition generate_preview (FFMPEG_AVAILABLE : bool) (FFMPEG_PATH : option string)
    (env : preview_env) (video_id format_id : string) (w : preview_world)
  : option string * preview_world :=
  match pv_store w !! Some video_id with
  | None => (None, w)
  | Some store =>
      match find_format (entry_formats store) (Some format_id) with
      | None => (None, w)
      | Some fmt =>
          let '(stream_url, w) :=
            if truthy_str (url fmt) then (url fmt, w)
            else
              let w := pv_emit (PvExtract (entry_url store)) w in
              match re_extract env (entry_url store) with
              | Raised _ => (None, w)
              | Returned formats =>
                  match find_raw_format formats format_id with
                  | Some f => (raw_url f, w)
                  | None => (url fmt, w)
                  end
              end in
          if negb (truthy_str stream_url) then (None, w)
          else
            let safe_name :=
              sanitize_filename
                (if truthy_str (entry_title store) then fstr (entry_title store)
                 else video_id) in
            let preview_fname := (safe_name ++ "_" ++ format_id ++ "_preview.mp4")%string in
            let preview_path := path_join PREVIEW_FOLDER preview_fname in
            if file_exists_in w preview_path then (Some preview_fname, w)
            else
              let '(ok, w) :=
                generate_preview_ffmpeg FFMPEG_AVAILABLE FFMPEG_PATH env
                  (fstr stream_url) preview_path 10 w in
              if ok then (Some preview_fname, w)
              else
                let w :=
                  if file_exists_in w preview_path then
                    let w := pv_emit (PvRemove preview_path) w in
                    if remove_raises env preview_path then w
                    else {| pv_files := pv_files w ∖ {[preview_path]};
                            pv_store := pv_store w; pv_trace := pv_trace w |}
                  else w in
                (None, w)
      end
  end.

Inductive preview_response : Type :=
| PreviewReady (filename : string)
| PreviewError.

Definition set_preview (format_id fname : string) (e : VideoEntry) : VideoEntry :=
  {| entry_formats := entry_formats e; entry_title := entry_title e;
     entry_thumbnail := entry_thumbnail e; entry_duration := entry_duration e;
     entry_url := entry_url e;
     entry_previews := <[format_id := fname]> (entry_previews e) |}.

(** [generate_preview_route].  The entry it updates is the dictionary
    that [video_store] holds, so the update is seen by the next request;
    with no such entry [generate_preview] has returned [None]. *)
Definition generate_preview_route (FFMPEG_AVAILABLE : bool) (FFMPEG_PATH : option string)
    (env : preview_env) (video_id format_id : string) (w : preview_world)
  : preview_response * preview_world :=
  let existing :=
    match pv_store w !! Some video_id with
    | Some store => entry_previews store
    | None => ∅
    end in
  let recorded :=
    match existing !! format_id with
    | Some fname0 => if str_empty fname0 then None else Some fname0
    | None => None
    end in
  match recorded with
  | Some fname0 => (PreviewReady fname0, w)
  | None =>
      match generate_preview FFMPEG_AVAILABLE FFMPEG_PATH env video_id format_id w with
      | (Some fname, w) =>
          if str_empty fname then (PreviewError, w)
          else
            (PreviewReady fname,
             {| pv_files := pv_files w;
                pv_store := alter (set_preview format_id fname) (Some video_id) (pv_store w);
                pv_trace := pv_trace w |})
      | (None, w) => (PreviewError, w)
      end
  end.

(** * The specification's vocabulary *)

(** The allow-list of file-name characters, spelled out. *)
Definition allow_list : string :=
  "abcdefghijklmnopqrstuvwxyzABCDEFGHIJKLMNOPQRSTUVWXYZ0123456789_-. ".

Fixpoint char_in (c : ascii) (s : string) : bool :=
  match s with
  | EmptyString => false
  | String c' s' => Ascii.eqb c c' || char_in c s'
  end.

(** The file [start_download] looks for:
    [{sanitized_title}_{resolution-or-format-id}.{ext}], the resolution
    being that of the format of the job that carries the posted id. *)
Definition output_filename (video_store : gmap job_id (list Format))
    (req : request) (title : string) : string :=
  let formats :=
    match video_store !! session_video_id req with Some fs => fs | None => [] end in
  let height :=
    match find_format formats (form_format_id req) with
    | Some f => height f
    | None => None
    end in
  (sanitize_filename title ++ "_" ++ resolution_of height (form_format_id req) ++ "."
   ++ (if opt_str_eqb (form_extract_audio req) (Some "yes") then "mp3" else "mp4"))%string.

(** A trim marker passes the handler's check when it is missing, empty or
    valid. *)
Definition marker_ok (t : option string) : bool :=
  negb (truthy_str t) || valid_time_format t.


Definition is_download (e : event) : bool :=
  match e with EvDownload _ _ _ _ _ => true | _ => false end.

(** The label as the specification words it.  The size is shown "in
    binary-prefixed units (B/KB/MB/GB/TB) with one decimal place" in the
    unit in which it is at least 1, "Size unknown" when it is 0. *)
Fixpoint spec_size_units (units : list string) (n : Q) : string :=
  match units with
  | [] => format_1f n
  | [unit] => (format_1f n ++ " " ++ unit)%string
  | unit :: rest =>
      if Qlt_bool n 1024 then (format_1f n ++ " " ++ unit)%string
      else spec_size_units rest (n / 1024)
  end.

Definition spec_size_text (size : Q) : string :=
  if Qeq_bool size 0 then "Size unknown"%string
  else spec_size_units ["B"; "KB"; "MB"; "GB"; "TB"]%string size.

Definition spec_label (f : Format) : string :=
  let note :=
    if str_empty (format_note f)
    then (str_of_Z (height_or_zero f) ++ "p")%string
    else format_note f in
  let bitrate :=
    if Qeq_bool (tbr f) 0 then EmptyString
    else ("~" ++ str_of_Z (py_int (tbr f)) ++ " kbps")%string in
  join bullet_sep
    (filter (fun p => negb (str_empty p)) [note; ext f; bitrate; spec_size_text (filesize f)]).

(** The label as [main.py] renders it, in one piece. *)
Definition label_text (f : Format) : string :=
  let note :=
    if str_empty (format_note f) then
      match height f with
      | Some h => if h =? 0 then "audio"%string else (str_of_Z h ++ "p")%string
      | None => "audio"%string
      end
    else format_note f in
  let bitrate :=
    if Qeq_bool (tbr f) 0 then EmptyString
    else (bullet_sep ++ "~" ++ str_of_Z (py_int (tbr f)) ++ " kbps")%string in
  let size :=
    if Qeq_bool (filesize f) 0 then "Size unknown"%string
    else (format_2f (fdiv (fdiv (filesize f) 1024) 1024) ++ " MB")%string in
  (note ++ bullet_sep ++ ext f ++ bitrate ++ bullet_sep ++ size)%string.








Definition empty_world : world := {| progress_data := ∅; trace := [] |}.

(** How one pass through the body of the [try] ends: [Some msg] when the
    download, ffmpeg or [os.replace] raises, [None] when the download and
    the trimming that follows it, if any, go through. *)
Definition run_failure (j : job) (run : attempt_run) : option string :=
  match run_download run with
  | Raised msg => Some msg
  | Returned _ =>
      if (truthy_str (job_start_time j) || truthy_str (job_end_time j))
         && negb (job_extract_audio j)
      then
        match run_trim run with
        | Raised msg => Some msg
        | Returned false => None
        | Returned true =>
            match run_replace run with
            | Raised msg => Some msg
            | Returned _ => None
            end
        end
      else None
  end.

(** The records the hook stores during one call of [ydl.download], and
    the store after them. *)
Definition hook_records (ticks : list Tick) : list ProgressRecord := omap hook_record ticks.

Definition store_after (video_id : job_id) (records : list ProgressRecord)
    (pd : gmap job_id ProgressRecord) : gmap job_id ProgressRecord :=
  fold_left (fun pd r => <[video_id := r]> pd) records pd.

(** The events of attempt [attempt], from the call of [ydl.download] to
    the end of the body of the [try]. *)
Definition body_events (j : job) (run : attempt_run) (attempt : Z) : list event :=
  trace (snd (try_body j run attempt empty_world)).

(** The event that opens attempt [attempt]. *)
Definition attempt_start (j : job) (attempt : Z) : event :=
  EvDownload attempt (job_url j) (job_format_id j)
    (path_join DOWNLOAD_FOLDER
       (sanitize_filename (job_title j) ++ "_"
        ++ resolution_of (job_height j) (job_format_id j) ++ ".%(ext)s")%string)
    (job_extract_audio j).

(** The events a run of [download_video] adds to the trace. *)
Definition job_events (FFMPEG_AVAILABLE : bool) (env : engine) (j : job) (w : world)
  : list event :=
  drop (length (trace w)) (trace (download_video FFMPEG_AVAILABLE env j w)).

(** What the [except] branch does before a retry. *)
Definition retry_events (video_id : job_id) (msg : string) (attempt : Z) : list event :=
  [EvWrite video_id (error_record msg (Some attempt)); EvSleep (3 * attempt);
   EvWrite video_id starting_record].

(** The statement after the loop, on one record. *)
Definition ensure_percent_record (r : ProgressRecord) : ProgressRecord :=
  if String.eqb (status r) "finished" then set_percent r 100 else r.

(** The bound the specification puts on the percent of a record, when the
    record carries one. *)
Definition percent_ok (r : ProgressRecord) : Prop :=
  match percent r with
  | Some p => 0 <= p <= 100
  | None => True
  end.

Definition event_percent_ok (e : event) : Prop :=
  match e with
  | EvWrite _ r => percent_ok r
  | EvSetPercent _ p => 0 <= p <= 100
  | _ => True
  end.

(** Every record in the store and every record ever stored is within the
    bound. *)
Definition world_percent_ok (w : world) : Prop :=
  map_Forall (fun _ r => percent_ok r) (progress_data w)
  /\ Forall event_percent_ok (trace w).

(** A downloading tick with a known total has a byte count within that
    total; other ticks are not constrained. *)
Definition tick_within_total (d : Tick) : Prop :=
  tick_status d = "downloading"%string ->
  forall total : Q,
    num_or (tick_total_bytes d) (tick_total_bytes_estimate d) = Some total ->
    nonzero total = true ->
    (0 <= match tick_downloaded d with Some v => v | None => 0 end <= total)%Q.

(** * Notions the proofs use *)

(** [a] may stand before [b]: [b] is not smaller. *)
Definition key_le (a b : Z * Z * Q * Q) : Prop := key_lt b a = false.

(** The same, on entries. *)
Definition fmt_le (f g : Format) : Prop := key_le (sort_key f) (sort_key g).

(** A dictionary is well formed when no key occurs twice and every entry
    sits under its own key. *)
Definition dict_wf (d : list (dedup_key * Format)) : Prop :=
  NoDup (map fst d) /\ Forall (fun kv => key_of (snd kv) = fst kv) d.

(** An entry whose extension passed the filter of the first loop. *)
Definition ext_allowed (f : Format) : Prop := str_in (ext f) allowed_exts = true.


(** * Sample inputs *)

Definition sample_job (audio : bool) : job :=
  {| job_url := Some "https://example.org/v"%string;
     job_format_id := Some "22"%string;
     job_video_id := Some "vid1"%string;
     job_title := "A title"%string;
     job_height := Some 720;
     job_extract_audio := audio;
     job_start_time := None;
     job_end_time := None |}.

Definition quiet_run (result : outcome unit) : attempt_run :=
  {| run_ticks := []; run_download := result;
     run_trim := Returned true; run_replace := Returned tt |}.

(** A POST for format 22 of the video "A title", with a start marker. *)
Definition sample_request (start_time : option string) : request :=
  {| form_format_id := Some "22"%string;
     form_extract_audio := None;
     form_start_time := start_time;
     form_end_time := None;
     session_video_url := Some "https://example.org/v"%string;
     session_video_id := Some "vid1"%string;
     session_video_title := Some "A title"%string |}.

(** A downloads directory that holds the file of that request. *)
Definition sample_disk (path : string) : bool :=
  String.eqb path "downloads/A title_22.mp4".

Definition sample_raw (id ext : string) (height : option Z) (tbr filesize : option Q)
  : RawFormat :=
  {| raw_format_id := Some id; raw_ext := Some ext; raw_height := height;
     raw_tbr := tbr; raw_abr := None; raw_filesize := filesize;
     raw_filesize_approx := None; raw_format_note := None; raw_format := None;
     raw_url := None |}.

(** Two mp4 encodings at 720 lines: [a] is the larger file, [b] has the
    higher bit rate. *)
Definition raw_a : RawFormat := sample_raw "a" "mp4" (Some 720) (Some 1%Q) (Some 100%Q).
Definition raw_b : RawFormat := sample_raw "b" "mp4" (Some 720) (Some 2%Q) (Some 50%Q).

(** A file of 1536 bytes, that is 1.5 KB. *)
Definition raw_small : RawFormat := sample_raw "s" "mp4" (Some 720) None (Some 1536%Q).

Definition raw_hd : RawFormat := sample_raw "hd" "webm" (Some 1080) None None.

Definition no_format : Format :=
  {| format_id := None; height := None; ext := ""; tbr := 0; filesize := 0;
     format_note := ""; url := None; label := None |}.


(** An engine whose every attempt returns, without a hook call. *)
Definition silent_engine : engine := fun _ => quiet_run (Returned tt).

(** A tick half way through 100 bytes, and the tick that ends a file. *)
Definition tick_half : Tick :=
  {| tick_status := "downloading"; tick_total_bytes := Some 100%Q;
     tick_total_bytes_estimate := None; tick_downloaded := Some 50%Q;
     tick_speed := Some 10%Q; tick_eta := None; tick_error := None |}.

Definition tick_finished : Tick :=
  {| tick_status := "finished"; tick_total_bytes := Some 100%Q;
     tick_total_bytes_estimate := None; tick_downloaded := Some 100%Q;
     tick_speed := None; tick_eta := None; tick_error := None |}.

(** An engine that fails twice and then downloads the file. *)
Definition flaky_engine : engine :=
  fun attempt =>
    if attempt <? 3 then quiet_run (Raised "boom")
    else {| run_ticks := [tick_half; tick_finished]; run_download := Returned tt;
            run_trim := Returned true; run_replace := Returned tt |}.

(** The world as [start_download] leaves it for the sample job. *)
Definition started_world : world :=
  {| progress_data := {[ Some "vid1"%string := starting_record ]}; trace := [] |}.

(** A tick that has fetched 150 bytes of an estimated 100. *)
Definition tick_over : Tick :=
  {| tick_status := "downloading"; tick_total_bytes := None;
     tick_total_bytes_estimate := Some 100%Q; tick_downloaded := Some 150%Q;
     tick_speed := Some 10%Q; tick_eta := None; tick_error := None |}.

(** An engine that reports half of the file and then the end. *)
Definition steady_engine : engine :=
  fun _ => {| run_ticks := [tick_half; tick_finished]; run_download := Returned tt;
              run_trim := Returned true; run_replace := Returned tt |}.

(** * Further vocabulary *)

(** Every character of [s] satisfies [p]. *)
Fixpoint str_forall (p : ascii -> bool) (s : string) : bool :=
  match s with
  | EmptyString => true
  | String c s' => p c && str_forall p s'
  end.

Definition digit_or_colon (c : ascii) : bool := is_digit c || Ascii.eqb c ":".

(** Formats of several heights for [choose_720p_or_nearest]. *)
Definition raw_480 : RawFormat := sample_raw "low" "mp4" (Some 480) None None.
Definition raw_360 : RawFormat := sample_raw "lower" "mp4" (Some 360) None None.
Definition raw_audio : RawFormat := sample_raw "au" "m4a" None (Some 128%Q) None.

(** [c] is at least as large and at least as fast as [c']. *)
Definition dominates (c c' : Format) : Prop :=
  Qle (filesize c') (filesize c) /\ Qle (tbr c') (tbr c).

(** [c] stands in [cands] and dominates every later candidate of its own
    height and extension. *)
Definition kept_from (cands : list Format) (c : Format) : Prop :=
  exists pre post : list Format,
    cands = pre ++ c :: post
    /\ (forall c' : Format, c' ∈ post -> key_of c' = key_of c -> dominates c c').

(** The seconds slept, in order. *)
Definition sleeps (evs : list event) : list Z :=
  omap (fun e => match e with EvSleep s => Some s | _ => None end) evs.

(** The events that touch a downloaded file after the download. *)
Definition is_trim (e : event) : bool :=
  match e with EvTrim _ | EvReplace _ _ => true | _ => false end.

(** The two paths of a job's trimming step. *)
Definition original_file (j : job) : string :=
  path_join DOWNLOAD_FOLDER
    (sanitize_filename (job_title j) ++ "_"
     ++ resolution_of (job_height j) (job_format_id j) ++ ".mp4")%string.

Definition trimmed_file (j : job) : string :=
  path_join DOWNLOAD_FOLDER
    (sanitize_filename (job_title j) ++ "_"
     ++ resolution_of (job_height j) (job_format_id j) ++ "_trimmed.mp4")%string.

Definition trim_requested (j : job) : bool :=
  (truthy_str (job_start_time j) || truthy_str (job_end_time j))
  && negb (job_extract_audio j).

(** What follows the hook calls in the body of the [try]. *)
Definition trim_events (j : job) (run : attempt_run) : list event :=
  match run_download run with
  | Raised _ => []
  | Returned _ =>
      if trim_requested j then
        EvTrim (trim_cmd (original_file j) (trimmed_file j)
                  (job_start_time j) (job_end_time j))
        :: match run_trim run with
           | Returned true => [EvReplace (trimmed_file j) (original_file j)]
           | _ => []
           end
      else []
  end.

(** The events that only touch the progress store or the clock. *)
Definition is_bookkeeping (e : event) : bool :=
  match e with EvWrite _ _ | EvSetPercent _ _ | EvSleep _ => true | _ => false end.

(** The sample job with a start marker. *)
Definition trim_job : job :=
  {| job_url := Some "https://example.org/v"%string;
     job_format_id := Some "22"%string;
     job_video_id := Some "vid1"%string;
     job_title := "A title"%string;
     job_height := Some 720;
     job_extract_audio := false;
     job_start_time := Some "10"%string;
     job_end_time := None |}.

(** The job the handler starts for a request. *)
Definition job_of_request (video_store : gmap job_id (list Format)) (req : request)
    (title : string) : job :=
  let formats :=
    match video_store !! session_video_id req with Some fs => fs | None => [] end in
  {| job_url := session_video_url req;
     job_format_id := form_format_id req;
     job_video_id := session_video_id req;
     job_title := title;
     job_height := match find_format formats (form_format_id req) with
                   | Some f => height f
                   | None => None
                   end;
     job_extract_audio := opt_str_eqb (form_extract_audio req) (Some "yes"%string);
     job_start_time := form_start_time req;
     job_end_time := form_end_time req |}.

(** A disk without files. *)
Definition empty_disk : string -> bool := fun _ => false.

(** A fresh application state, and what yt-dlp finds at the sample
    address. *)
Definition empty_app : app_state :=
  {| app_session := {| sess_video_url := None; sess_video_title := None;
                       sess_video_id := None |};
     app_store := ∅; app_flashes := [] |}.

Definition sample_info (id : option string) : VideoInfo :=
  {| info_id := id; info_title := Some "A title"%string; info_thumbnail := None;
     info_duration := Some 60%Q; info_formats := [raw_a; raw_b] |}.

Definition sample_extract (id : option string) : string -> outcome VideoInfo :=
  fun _ => Returned (sample_info id).

Definition failing_extract : string -> outcome VideoInfo :=
  fun _ => Raised "no such video".

(** A form [url] that the handler takes for missing. *)
Definition falsy_url (form_url : option string) : bool := negb (truthy_str form_url).

Definition is_extract (e : preview_event) : bool :=
  match e with PvExtract _ => true | _ => false end.

(** A store with one video whose format 22 has a direct URL, an
    environment in which ffmpeg succeeds and one in which it fails and
    leaves a partial file. *)
Definition sample_entry : VideoEntry :=
  {| entry_formats :=
       [{| format_id := Some "22"%string; height := Some 720; ext := "mp4"; tbr := 0;
           filesize := 0; format_note := ""; url := Some "https://cdn.example.org/22"%string;
           label := None |}];
     entry_title := Some "A title"%string; entry_thumbnail := None;
     entry_duration := None; entry_url := Some "https://example.org/v"%string;
     entry_previews := ∅ |}.

Definition sample_preview_world : preview_world :=
  {| pv_files := ∅; pv_store := {[ Some "vid1"%string := sample_entry ]}; pv_trace := [] |}.

Definition good_ffmpeg : preview_env :=
  {| ffmpeg_run := fun _ => Returned true; ffmpeg_leaves_file := fun _ => true;
     re_extract := fun _ => Raised "offline"; remove_raises := fun _ => false |}.

Definition bad_ffmpeg : preview_env :=
  {| ffmpeg_run := fun _ => Returned false; ffmpeg_leaves_file := fun _ => true;
     re_extract := fun _ => Raised "offline"; remove_raises := fun _ => false |}.

(** * Properties *)

(** ** Strings *)

Lemma re_sub_underscore_length (cls : ascii -> bool) (s : string) :
  String.length (re_sub_class cls "_" s) = String.length s.
Proof.
  induction s as [|c s IH]; cbn; [reflexivity|].
  destruct (cls c);
    change (S (String.length (re_sub_class cls "_" s)) = S (String.length s));
    now rewrite IH.
Qed.

Lemma re_sub_underscore_get (cls : ascii -> bool) (s : string) (i : nat) :
  String.get i (re_sub_class cls "_" s)
  = option_map (fun c => if cls c then "_"%char else c) (String.get i s).
Proof.
  revert i; induction s as [|c s IH]; intros i; cbn; [reflexivity|].
  destruct (cls c) eqn:E;
    [change ("_" +:+ re_sub_class cls "_" s)
       with (String "_" (re_sub_class cls "_" s))|];
    destruct i; cbn; try rewrite E; auto.
Qed.

Lemma str_take_length (n : nat) (s : string) :
  String.length (str_take n s) = Nat.min n (String.length s).
Proof.
  revert s; induction n as [|n IH]; intros [|c s]; simpl; auto.
Qed.

Lemma str_take_get (n : nat) (s : string) (i : nat) :
  String.get i (str_take n s) = if (i <? n)%nat then String.get i s else None.
Proof.
  revert s i; induction n as [|n IH]; intros [|c s] i; simpl; auto.
  - now destruct (i <? S n)%nat.
  - destruct i; simpl; [reflexivity|]. now rewrite IH.
Qed.

Lemma filename_char_allow_list (c : ascii) :
  filename_char c = char_in c allow_list.
Proof.
  destruct c as [[] [] [] [] [] [] [] []]; vm_compute; reflexivity.
Qed.

(** C9.  [sanitize_filename] keeps the first 200 characters of its
    argument, each character of the allow-list (letters, digits,
    underscore, hyphen, dot, space) unchanged at its place and every other
    character replaced by one underscore. *)
Theorem sanitize_filename_spec (name : string) :
  String.length (sanitize_filename name) = Nat.min 200 (String.length name)
  /\ (forall i : nat,
        String.get i (sanitize_filename name)
        = if (i <? 200)%nat
          then option_map (fun c => if char_in c allow_list then c else "_"%char)
                          (String.get i name)
          else None).
Proof.
  unfold sanitize_filename; split.
  - now rewrite str_take_length, re_sub_underscore_length.
  - intros i. rewrite str_take_get, re_sub_underscore_get.
    destruct (i <? 200)%nat; [|reflexivity].
    destruct (String.get i name) as [c|]; [|reflexivity].
    unfold option_map. rewrite filename_char_allow_list.
    now destruct (char_in c allow_list).
Qed.

(** ** Audio extraction without ffmpeg *)

(** C7.  A job that asks for audio only while ffmpeg is not available
    stores one error record and returns: the record is the job's last
    state and [ydl.download] is never entered. *)
Theorem audio_without_ffmpeg (env : engine) (j : job) (w : world) :
  job_extract_audio j = true ->
  let w' := download_video false env j w in
  trace w' = trace w ++ [EvWrite (job_video_id j) (error_record ffmpeg_missing_msg None)]
  /\ progress_data w' !! job_video_id j = Some (error_record ffmpeg_missing_msg None)
  /\ status (error_record ffmpeg_missing_msg None) = "error"%string
  /\ filter is_download (trace w') = filter is_download (trace w).
Proof.
  intros Ha. unfold download_video. rewrite Ha. cbn.
  repeat split.
  - apply lookup_insert_eq.
  - rewrite filter_app. cbn. now rewrite app_nil_r.
Qed.

Lemma audio_without_ffmpeg_witness :
  let w' := download_video false (fun _ => quiet_run (Returned tt)) (sample_job true)
              empty_world in
  trace w' = [EvWrite (Some "vid1"%string) (error_record ffmpeg_missing_msg None)]
  /\ progress_data w' !! Some "vid1"%string = Some (error_record ffmpeg_missing_msg None)
  /\ status (error_record ffmpeg_missing_msg None) = "error"%string
  /\ filter is_download (trace w') = [].
Proof.
  exact (audio_without_ffmpeg (fun _ => quiet_run (Returned tt)) (sample_job true)
           empty_world eq_refl).
Defined.

(** ** [start_download] when the file is already there *)




(** ** The order of [process_formats] *)

Lemma Qeq_bool_compare (x y : Q) :
  Qeq_bool x y = match Qcompare x y with Eq => true | _ => false end.
Proof.
  destruct (Qcompare_spec x y) as [H|H|H].
  - now apply Qeq_bool_iff.
  - destruct (Qeq_bool x y) eqn:E; [|reflexivity].
    apply Qeq_bool_iff in E. rewrite E in H. now apply Qlt_irrefl in H.
  - destruct (Qeq_bool x y) eqn:E; [|reflexivity].
    apply Qeq_bool_iff in E. rewrite E in H. now apply Qlt_irrefl in H.
Qed.

Lemma Qlt_bool_true (x y : Q) : Qlt_bool x y = true <-> (x < y)%Q.
Proof.
  unfold Qlt_bool. destruct (Qcompare_spec x y) as [H|H|H]; split; intros G;
    try discriminate; try reflexivity; auto.
  - rewrite H in G. now apply Qlt_irrefl in G.
  - exfalso. apply (Qlt_irrefl x). now apply Qlt_trans with y.
Qed.

Lemma Qlt_bool_false (x y : Q) : Qlt_bool x y = false <-> (y <= x)%Q.
Proof.
  split; intros H.
  - apply Qnot_lt_le. intros G. apply Qlt_bool_true in G. congruence.
  - destruct (Qlt_bool x y) eqn:E; [|reflexivity].
    apply Qlt_bool_true in E. now apply Qle_not_lt in H.
Qed.

(** [key_lt] is the lexicographic order, number by number. *)
Lemma key_lt_lex (a1 a2 b1 b2 : Z) (a3 a4 b3 b4 : Q) :
  key_lt (a1, a2, a3, a4) (b1, b2, b3, b4) = true
  <-> a1 < b1
      \/ (a1 = b1 /\ (a2 < b2
          \/ (a2 = b2 /\ ((a3 < b3)%Q \/ ((a3 == b3)%Q /\ (a4 < b4)%Q))))).
Proof.
  unfold key_lt. rewrite Qeq_bool_compare. unfold Qlt_bool at 1.
  destruct (Z.eqb_spec a1 b1) as [E1|E1]; cbn [negb].
  2: { rewrite Z.ltb_lt. intuition lia. }
  destruct (Z.eqb_spec a2 b2) as [E2|E2]; cbn [negb].
  2: { rewrite Z.ltb_lt. intuition lia. }
  destruct (Qcompare_spec a3 b3) as [E3|E3|E3]; cbn [negb].
  - rewrite Qlt_bool_true. split; [intros H; right; split; [assumption|right; split; [assumption|]]; right; split; assumption|].
    intros [H|[_ [H|[_ [H|[_ H]]]]]]; try lia; try assumption.
    rewrite E3 in H. now apply Qlt_irrefl in H.
  - split; [intros _; right; split; [assumption|right; split; [assumption|left; assumption]]|reflexivity].
  - split; [discriminate|].
    intros [H|[_ [H|[_ [H|[H _]]]]]]; try lia.
    + exfalso. apply (Qlt_irrefl a3). now apply Qlt_trans with b3.
    + rewrite H in E3. now apply Qlt_irrefl in E3.
Qed.

Lemma key_lt_asym (a b : Z * Z * Q * Q) : key_lt a b = true -> key_le a b.
Proof.
  destruct a as [[[a1 a2] a3] a4], b as [[[b1 b2] b3] b4]. unfold key_le.
  intros H. destruct (key_lt (b1, b2, b3, b4) (a1, a2, a3, a4)) eqn:G; [|reflexivity].
  apply key_lt_lex in H. apply key_lt_lex in G.
  destruct H as [H|[-> [H|[-> [H|[H1 H]]]]]];
    destruct G as [G|[G0 [G|[G1 [G|[G2 G]]]]]]; try lia.
  - exfalso. apply (Qlt_irrefl a3). now apply Qlt_trans with b3.
  - rewrite G2 in H. now apply Qlt_irrefl in H.
  - rewrite H1 in G. now apply Qlt_irrefl in G.
  - exfalso. apply (Qlt_irrefl a4). now apply Qlt_trans with b4.
Qed.

Lemma key_le_lex (a1 a2 b1 b2 : Z) (a3 a4 b3 b4 : Q) :
  key_le (a1, a2, a3, a4) (b1, b2, b3, b4)
  <-> a1 < b1
      \/ (a1 = b1 /\ (a2 < b2
          \/ (a2 = b2 /\ ((a3 < b3)%Q \/ ((a3 == b3)%Q /\ (a4 <= b4)%Q))))).
Proof.
  unfold key_le. split.
  - intros H.
    assert (N : ~ (b1 < a1
      \/ (b1 = a1 /\ (b2 < a2
          \/ (b2 = a2 /\ ((b3 < a3)%Q \/ ((b3 == a3)%Q /\ (b4 < a4)%Q))))))).
    { intros G. apply key_lt_lex in G. congruence. }
    destruct (Z.lt_total a1 b1) as [L|[L|L]]; [now left| |tauto].
    right; split; [assumption|].
    destruct (Z.lt_total a2 b2) as [M|[M|M]]; [now left| |intuition lia].
    right; split; [assumption|].
    destruct (Qcompare_spec a3 b3) as [E|E|E]; [|now left|].
    + right; split; [assumption|]. apply Qnot_lt_le. intros G. apply N.
      right; split; [lia|]. right; split; [lia|]. right. split; [now symmetry|assumption].
    + exfalso. apply N. right; split; [lia|]. right; split; [lia|]. now left.
  - intros H. destruct (key_lt (b1, b2, b3, b4) (a1, a2, a3, a4)) eqn:G; [|reflexivity].
    apply key_lt_lex in G.
    destruct H as [H|[-> [H|[-> [H|[H1 H]]]]]];
      destruct G as [G|[G0 [G|[G1 [G|[G2 G]]]]]]; try lia.
    + exfalso. apply (Qlt_irrefl a3). now apply Qlt_trans with b3.
    + rewrite G2 in H. now apply Qlt_irrefl in H.
    + rewrite H1 in G. now apply Qlt_irrefl in G.
    + now apply Qle_not_lt in H.
Qed.

Lemma key_le_trans (a b c : Z * Z * Q * Q) : key_le a b -> key_le b c -> key_le a c.
Proof.
  destruct a as [[[a1 a2] a3] a4], b as [[[b1 b2] b3] b4], c as [[[c1 c2] c3] c4].
  rewrite !key_le_lex.
  intros [H|[-> [H|[-> [H|[H1 H]]]]]] [G|[G0 [G|[G1 [G|[G2 G]]]]]]; subst;
    try (left; lia); try (right; split; [reflexivity|left; lia]).
  all: right; split; [reflexivity|]; right; split; [reflexivity|].
  - left. now apply Qlt_trans with b3.
  - left. now rewrite <- G2.
  - left. now rewrite H1.
  - right. split; [now rewrite H1|]. now apply Qle_trans with b4.
Qed.

Lemma insert_by_key_Forall (P : Format -> Prop) (f : Format) (l : list Format) :
  P f -> Forall P l -> Forall P (insert_by_key f l).
Proof.
  intros Hf Hl. induction Hl as [|g l Hg Hl IH]; cbn [insert_by_key].
  - constructor; [assumption|constructor].
  - destruct (key_lt (sort_key g) (sort_key f)); repeat (constructor; try assumption).
Qed.

Lemma insert_by_key_sorted (f : Format) (l : list Format) :
  StronglySorted fmt_le l -> StronglySorted fmt_le (insert_by_key f l).
Proof.
  intros Hl. induction Hl as [|g l Hl IH Hg]; cbn [insert_by_key].
  - repeat constructor.
  - destruct (key_lt (sort_key g) (sort_key f)) eqn:E.
    + constructor; [assumption|].
      apply insert_by_key_Forall; [|assumption]. now apply key_lt_asym.
    + constructor; [now constructor|].
      constructor; [exact E|].
      eapply Forall_impl; [exact Hg|]. intros x Hx.
      unfold fmt_le in *. eapply key_le_trans; [exact E|exact Hx].
Qed.

Lemma sort_by_key_sorted (l : list Format) : StronglySorted fmt_le (sort_by_key l).
Proof.
  induction l as [|f l IH]; cbn [sort_by_key]; [constructor|].
  now apply insert_by_key_sorted.
Qed.

Lemma sort_key_with_label (f : Format) : sort_key (with_label f) = sort_key f.
Proof. reflexivity. Qed.

Lemma map_with_label_sorted (l : list Format) :
  StronglySorted fmt_le l -> StronglySorted fmt_le (map with_label l).
Proof.
  intros H. induction H as [|f l Hl IH Hf]; cbn [map]; constructor; [assumption|].
  apply Forall_map. eapply Forall_impl; [exact Hf|]. intros x Hx. exact Hx.
Qed.

Lemma process_formats_strongly_sorted (raw_formats : list RawFormat) :
  StronglySorted fmt_le (process_formats raw_formats).
Proof.
  unfold process_formats. destruct raw_formats; [constructor|].
  apply map_with_label_sorted, sort_by_key_sorted.
Qed.

Lemma strongly_sorted_lookup (l : list Format) (i j : nat) (fi fj : Format) :
  StronglySorted fmt_le l -> (i < j)%nat ->
  l !! i = Some fi -> l !! j = Some fj -> fmt_le fi fj.
Proof.
  intros H; revert i j. induction H as [|f l Hl IH Hf]; intros i j Hij Hi Hj.
  - discriminate.
  - destruct j as [|j]; [lia|]. destruct i as [|i]; cbn in *.
    + injection Hi as <-. rewrite Forall_forall in Hf. apply Hf.
      apply list_elem_of_lookup. eauto.
    + apply (IH i j); [lia|assumption|assumption].
Qed.

(** C5.  In the output of [process_formats] an entry with a height never
    comes after one without; of two entries with a height the earlier one
    is at least as high, at equal height has at least the bit rate, and at
    equal bit rate has at least the file size. *)
Theorem process_formats_order (raw_formats : list RawFormat) (i j : nat)
    (fi fj : Format) :
  (i < j)%nat ->
  process_formats raw_formats !! i = Some fi ->
  process_formats raw_formats !! j = Some fj ->
  (height fi = None -> height fj = None)
  /\ (forall hi hj : Z, height fi = Some hi -> height fj = Some hj ->
        hj <= hi
        /\ (hi = hj ->
            (tbr fj <= tbr fi)%Q
            /\ ((tbr fi == tbr fj)%Q -> (filesize fj <= filesize fi)%Q))).
Proof.
  intros Hij Hi Hj.
  pose proof (strongly_sorted_lookup _ _ _ _ _
                (process_formats_strongly_sorted raw_formats) Hij Hi Hj) as H.
  unfold fmt_le, sort_key, height_or_zero in H. apply key_le_lex in H.
  split.
  - intros Hn. rewrite Hn in H. destruct (height fj); [lia|reflexivity].
  - intros hi hj Hhi Hhj. rewrite Hhi, Hhj in H.
    destruct H as [H|[_ [H|[H0 [H|[H1 H]]]]]]; try lia.
    + split; [lia|]. intros _. split.
      * apply Qlt_le_weak. now apply Qopp_lt_compat in H; rewrite !Qopp_involutive in H.
      * intros E. rewrite E in H. now apply Qlt_irrefl in H.
    + split; [lia|]. intros _. split.
      * apply Qle_lteq. right. apply Qopp_comp in H1. rewrite !Qopp_involutive in H1.
        now symmetry.
      * intros _. apply Qopp_le_compat in H. now rewrite !Qopp_involutive in H.
Qed.

Lemma process_formats_order_witness :
  let out := process_formats [raw_a; raw_hd] in
  let fi := nth 0 out no_format in
  let fj := nth 1 out no_format in
  (0 < 1)%nat /\ out !! 0%nat = Some fi /\ out !! 1%nat = Some fj
  /\ (height fi = None -> height fj = None)
  /\ (forall hi hj : Z, height fi = Some hi -> height fj = Some hj ->
        hj <= hi
        /\ (hi = hj ->
            (tbr fj <= tbr fi)%Q
            /\ ((tbr fi == tbr fj)%Q -> (filesize fj <= filesize fi)%Q))).
Proof.
  cbv zeta. split; [lia|]. split; [reflexivity|]. split; [reflexivity|].
  apply (process_formats_order [raw_a; raw_hd] 0 1); [lia|reflexivity|reflexivity].
Defined.

(** ** Deduplication *)

(** C1, where the code departs from it.  Of two candidates for 720-line
    mp4 the loop keeps [b], the one with the higher bit rate, although [a]
    is the larger file: the second test is made whenever the first one
    fails, not only when the sizes are equal. *)
Theorem dedupe_keeps_smaller_file :
  map format_id (process_formats [raw_a; raw_b]) = [Some "b"%string]
  /\ map key_of (candidates [raw_a; raw_b]) = [(720, "mp4"%string); (720, "mp4"%string)]
  /\ map filesize (candidates [raw_a; raw_b]) = [100%Q; 50%Q]
  /\ map filesize (process_formats [raw_a; raw_b]) = [50%Q].
Proof. vm_compute. repeat split. Qed.

Lemma key_eqb_eq (a b : dedup_key) : key_eqb a b = true <-> a = b.
Proof.
  destruct a as [h e], b as [h' e']. unfold key_eqb. cbn [fst snd].
  rewrite andb_true_iff, Z.eqb_eq, String.eqb_eq. split.
  - intros [-> ->]. reflexivity.
  - intros [= -> ->]. auto.
Qed.

Lemma dict_set_keys (k : dedup_key) (v : Format) (d : list (dedup_key * Format)) :
  map fst (dict_set k v d)
  = if existsb (key_eqb k) (map fst d) then map fst d else map fst d ++ [k].
Proof.
  induction d as [|[k' v'] d IH]; cbn [dict_set map fst existsb app]; [reflexivity|].
  destruct (key_eqb k k') eqn:E; cbn [orb map fst]; [reflexivity|].
  rewrite IH. now destruct (existsb (key_eqb k) (map fst d)).
Qed.

Lemma dict_get_None (k : dedup_key) (d : list (dedup_key * Format)) :
  dict_get k d = None <-> existsb (key_eqb k) (map fst d) = false.
Proof.
  induction d as [|[k' v'] d IH]; cbn [dict_get map fst existsb]; [tauto|].
  destruct (key_eqb k k'); cbn [orb]; [split; discriminate|exact IH].
Qed.

Lemma dict_set_wf (k : dedup_key) (v : Format) (d : list (dedup_key * Format)) :
  key_of v = k -> dict_wf d -> dict_wf (dict_set k v d).
Proof.
  intros Hk [Hn Hf]. split.
  - rewrite dict_set_keys. destruct (existsb (key_eqb k) (map fst d)) eqn:E; [assumption|].
    apply NoDup_app. repeat split; [assumption| |apply NoDup_singleton].
    intros x Hx Hx'. apply list_elem_of_singleton in Hx'. subst x.
    assert (existsb (key_eqb k) (map fst d) = true); [|congruence].
    apply existsb_exists. exists k. split; [now apply list_elem_of_In|now apply key_eqb_eq].
  - clear Hn. induction Hf as [|[k' v'] d Hkv Hf IH]; cbn [dict_set].
    + repeat constructor. exact Hk.
    + destruct (key_eqb k k') eqn:E.
      * apply key_eqb_eq in E. subst k'. constructor; [exact Hk|assumption].
      * constructor; assumption.
Qed.

Lemma dedupe_step_wf (d : list (dedup_key * Format)) (f : Format) :
  dict_wf d -> dict_wf (dedupe_step d f).
Proof.
  intros H. unfold dedupe_step.
  destruct (dict_get (key_of f) d);
    repeat match goal with |- context [if ?b then _ else _] => destruct b end;
    try assumption; now apply dict_set_wf.
Qed.

Lemma fold_dedupe_wf (cands : list Format) (d : list (dedup_key * Format)) :
  dict_wf d -> dict_wf (fold_left dedupe_step cands d).
Proof.
  revert d; induction cands as [|f cands IH]; intros d H; cbn [fold_left]; [assumption|].
  apply IH. now apply dedupe_step_wf.
Qed.

Lemma insert_by_key_perm (f : Format) (l : list Format) :
  Permutation (insert_by_key f l) (f :: l).
Proof.
  induction l as [|g l IH]; cbn [insert_by_key]; [reflexivity|].
  destruct (key_lt (sort_key g) (sort_key f)); [|reflexivity].
  rewrite IH. apply Permutation_swap.
Qed.

Lemma sort_by_key_perm (l : list Format) : Permutation (sort_by_key l) l.
Proof.
  induction l as [|f l IH]; cbn [sort_by_key]; [reflexivity|].
  rewrite insert_by_key_perm. now constructor.
Qed.

(** The first part of C1 does hold: the output never carries two entries
    with the same height and extension. *)
Lemma process_formats_distinct (raw_formats : list RawFormat) (i j : nat)
    (fi fj : Format) :
  i <> j ->
  process_formats raw_formats !! i = Some fi ->
  process_formats raw_formats !! j = Some fj ->
  (height fi, ext fi) <> (height fj, ext fj).
Proof.
  intros Hij Hi Hj E.
  assert (N : NoDup (map key_of (process_formats raw_formats))).
  { unfold process_formats. destruct raw_formats as [|r rs]; [constructor|].
    rewrite map_map.
    change (NoDup (map key_of (sort_by_key (dict_values (dedupe (candidates (r :: rs))))))).
    rewrite sort_by_key_perm. unfold dict_values, dedupe.
    destruct (fold_dedupe_wf (candidates (r :: rs)) []) as [Hn Hf].
    { split; constructor. }
    rewrite map_map.
    replace (map (fun x => key_of (snd x)) (fold_left dedupe_step (candidates (r :: rs)) []))
      with (map fst (fold_left dedupe_step (candidates (r :: rs)) [])); [assumption|].
    induction Hf as [|kv d Hkv Hf IH]; cbn [map]; [reflexivity|].
    rewrite Hkv. f_equal. apply IH. now inversion Hn. }
  apply Hij. eapply NoDup_lookup; [exact N| |].
  - rewrite list_lookup_fmap, Hi. reflexivity.
  - rewrite list_lookup_fmap, Hj. cbn. f_equal. unfold key_of, height_or_zero.
    injection E as -> ->. reflexivity.
Qed.

(** ** Labels *)

Lemma append_nonempty (s t : string) : str_empty t = false -> str_empty (s ++ t) = false.
Proof. destruct s, t; intros H; try reflexivity; discriminate. Qed.

Lemma or_str_nonempty (a b : string) : str_empty b = false -> str_empty (or_str a b) = false.
Proof. unfold or_str. destruct (str_empty a) eqn:E; auto. Qed.

Lemma note_of_nonempty (f : Format) : str_empty (note_of f) = false.
Proof.
  unfold note_of. destruct (height_truthy f); apply or_str_nonempty;
    [now apply append_nonempty|reflexivity].
Qed.

Lemma size_text_nonempty (f : Format) : str_empty (size_text_of f) = false.
Proof.
  unfold size_text_of. destruct (nonzero (filesize f));
    [now apply append_nonempty|reflexivity].
Qed.

Lemma allowed_ext_nonempty (e : string) : str_in e allowed_exts = true -> str_empty e = false.
Proof. destruct e; [discriminate|reflexivity]. Qed.

Lemma candidates_allowed (raw_formats : list RawFormat) :
  Forall ext_allowed (candidates raw_formats).
Proof.
  induction raw_formats as [|r rs IH]; cbn [candidates]; [constructor|].
  unfold candidate.
  destruct (str_in (lower (str_or_empty (raw_ext r))) allowed_exts) eqn:E; cbn [negb];
    [constructor; [exact E|exact IH]|exact IH].
Qed.

Lemma dict_set_Forall (P : Format -> Prop) (k : dedup_key) (v : Format)
    (d : list (dedup_key * Format)) :
  P v -> Forall P (dict_values d) -> Forall P (dict_values (dict_set k v d)).
Proof.
  intros Hv. unfold dict_values.
  induction d as [|[k' v'] d IH]; cbn [dict_set map snd]; intros H.
  - repeat constructor. exact Hv.
  - inversion H as [|? ? Hv' Hd]; subst.
    destruct (key_eqb k k'); cbn [map snd]; constructor; auto.
Qed.

Lemma dedupe_Forall (P : Format -> Prop) (cands : list Format) :
  Forall P cands -> Forall P (dict_values (dedupe cands)).
Proof.
  unfold dedupe. assert (H0 : Forall P (dict_values [])) by constructor.
  revert H0. generalize (@nil (dedup_key * Format)) as d.
  induction cands as [|f cands IH]; intros d Hd Hc; cbn [fold_left]; [assumption|].
  inversion Hc as [|? ? Hf Hc']; subst. apply IH; [|assumption].
  unfold dedupe_step. destruct (dict_get (key_of f) d);
    repeat match goal with |- context [if ?b then _ else _] => destruct b end;
    try assumption; now apply dict_set_Forall.
Qed.

Lemma sort_by_key_Forall (P : Format -> Prop) (l : list Format) :
  Forall P l -> Forall P (sort_by_key l).
Proof.
  intros H. induction H as [|f l Hf Hl IH]; cbn [sort_by_key]; [constructor|].
  now apply insert_by_key_Forall.
Qed.

Lemma with_label_text (f : Format) :
  ext_allowed f -> label (with_label f) = Some (label_text (with_label f)).
Proof.
  intros Ha. apply allowed_ext_nonempty in Ha.
  unfold with_label, label_text. cbn [label format_note height ext tbr filesize]. f_equal.
  pose proof (note_of_nonempty f) as Hn. pose proof (size_text_nonempty f) as Hs.
  assert (En : note_of f
               = if str_empty (format_note f) then
                   match height f with
                   | Some h => if h =? 0 then "audio"%string else (str_of_Z h ++ "p")%string
                   | None => "audio"%string
                   end
                 else format_note f).
  { unfold note_of, height_truthy, height_or_zero, or_str.
    destruct (height f) as [h|]; [|reflexivity].
    destruct (h =? 0); reflexivity. }
  assert (Es : size_text_of f
               = if Qeq_bool (filesize f) 0 then "Size unknown"%string
                 else (format_2f (fdiv (fdiv (filesize f) 1024) 1024) ++ " MB")%string).
  { unfold size_text_of, nonzero. now destruct (Qeq_bool (filesize f) 0). }
  assert (Eb : (if Qeq_bool (tbr f) 0 then EmptyString
                else (bullet_sep ++ "~" ++ str_of_Z (py_int (tbr f)) ++ " kbps")%string)
               = if str_empty (br_text_of f) then EmptyString
                 else (bullet_sep ++ br_text_of f)%string).
  { unfold br_text_of, nonzero. now destruct (Qeq_bool (tbr f) 0). }
  rewrite <- En, <- Es, Eb.
  destruct (str_empty (br_text_of f)) eqn:Hb; cbn [negb str_empty app filter];
    rewrite ?Hn, ?Ha, ?Hs, ?Hb; cbn [negb join].
  - destruct (note_of f), (ext f), (size_text_of f); try discriminate; reflexivity.
  - destruct (note_of f), (ext f), (size_text_of f), (br_text_of f);
      try discriminate; reflexivity.
Qed.

(** C6, as the code has it.  The label of every entry is
    [note • ext • ~N kbps • size]: the note is the format note or, failing
    that, the height followed by [p], or [audio] when there is no height;
    the bit-rate part is there when the bit rate is not 0 and shows it
    truncated; the size is the file size divided twice by 1024, with two
    decimals and the unit MB whatever its magnitude, or [Size unknown]
    when it is 0.  No other part is ever left out. *)
Theorem process_formats_label (raw_formats : list RawFormat) :
  Forall (fun f => label f = Some (label_text f)) (process_formats raw_formats).
Proof.
  unfold process_formats. destruct raw_formats as [|r rs]; [constructor|].
  apply Forall_map.
  eapply Forall_impl.
  - apply sort_by_key_Forall, dedupe_Forall, (candidates_allowed (r :: rs)).
  - intros f Hf. now apply with_label_text.
Qed.

(** C6 as stated fails: a file of 1536 bytes is labelled [0.00 MB], not
    [1.5 KB]. *)
Lemma label_size_counterexample :
  map label (process_formats [raw_small])
  = [Some ("720p" ++ bullet_sep ++ "mp4" ++ bullet_sep ++ "0.00 MB")%string]
  /\ map spec_label (process_formats [raw_small])
     = [("720p" ++ bullet_sep ++ "mp4" ++ bullet_sep ++ "1.5 KB")%string]
  /\ map label (process_formats [raw_small])
     <> map (fun f => Some (spec_label f)) (process_formats [raw_small]).
Proof.
  vm_compute. repeat split. discriminate.
Qed.

(** ** Regular expressions *)

Lemma append_cons (c : ascii) (s t : string) : (String c s ++ t = String c (s ++ t))%string.
Proof. reflexivity. Qed.

Lemma append_empty_r (s : string) : (s ++ "" = s)%string.
Proof. induction s as [|c s IH]; [reflexivity|]. now rewrite append_cons, IH. Qed.







(** ** [valid_time_format] *)





















(** ** The retry loop *)

(** The ways through the body of the [try]: the download raises or
    returns; there is trimming or not; ffmpeg raises, fails or succeeds;
    [os.replace] raises or returns. *)
Ltac body_cases j run :=
  destruct (run_download run) as [[]|?];
  [destruct ((truthy_str (job_start_time j) || truthy_str (job_end_time j))
             && negb (job_extract_audio j));
   [destruct (run_trim run) as [[|]|?];
    [destruct (run_replace run) as [[]|?]| |]|]|].

Lemma fold_hooks (video_id : job_id) (ticks : list Tick) (w : world) :
  fold_left (fun w d => progress_hook video_id d w) ticks w
  = {| progress_data := store_after video_id (hook_records ticks) (progress_data w);
       trace := trace w ++ map (EvWrite video_id) (hook_records ticks) |}.
Proof.
  revert w. induction ticks as [|d ticks IH]; intros w; cbn [fold_left].
  - cbn. rewrite app_nil_r. now destruct w.
  - rewrite IH. unfold progress_hook, hook_records. cbn [omap list_omap].
    fold (hook_records ticks).
    destruct (hook_record d) as [r|]; [|reflexivity].
    cbn [write progress_data trace store_after fold_left map].
    now rewrite <- app_assoc.
Qed.

(** The body of the [try] adds its events to the trace, passes the hook's
    records to the store and fails as [run_failure] says. *)
Lemma try_body_spec (j : job) (run : attempt_run) (attempt : Z) (w : world) :
  try_body j run attempt w
  = (run_failure j run,
     {| progress_data :=
          store_after (job_video_id j) (hook_records (run_ticks run)) (progress_data w);
        trace := trace w ++ body_events j run attempt |}).
Proof.
  unfold body_events, try_body, run_failure. rewrite !fold_hooks.
  body_cases j run;
    unfold emit; cbn [progress_data trace fst snd empty_world app];
    repeat rewrite <- app_assoc; reflexivity.
Qed.

Lemma body_events_start (j : job) (run : attempt_run) (attempt : Z) :
  exists rest : list event,
    body_events j run attempt = attempt_start j attempt :: rest
    /\ filter is_download rest = [].
Proof.
  unfold body_events, try_body, attempt_start. rewrite fold_hooks.
  assert (H : forall l, filter is_download (map (EvWrite (job_video_id j)) l) = []).
  { induction l as [|r l IH]; [reflexivity|exact IH]. }
  body_cases j run;
    unfold emit; cbn [progress_data trace fst snd empty_world app];
    eexists; (split; [reflexivity|]); rewrite ?filter_app, H; reflexivity.
Qed.

Lemma drop_own_length (l x : list event) : drop (length l) (l ++ x) = x.
Proof. now rewrite drop_app_length. Qed.

Lemma ensure_percent_events (video_id : job_id) (w : world) :
  exists fin : list event,
    trace (ensure_percent video_id w) = trace w ++ fin
    /\ (fin = [] \/ fin = [EvSetPercent video_id 100]).
Proof.
  unfold ensure_percent. destruct (progress_data w !! video_id) as [r|].
  - destruct (String.eqb (status r) "finished").
    + exists [EvSetPercent video_id 100]. auto.
    + exists []. rewrite app_nil_r. auto.
  - exists []. rewrite app_nil_r. auto.
Qed.

(** The four ways a job that gets past the ffmpeg check can go: success
    at the first, second or third attempt, or three failures. *)
Lemma job_events_shape (FFMPEG_AVAILABLE : bool) (env : engine) (j : job) (w : world) :
  job_extract_audio j && negb FFMPEG_AVAILABLE = false ->
  let vid := job_video_id j in
  let b := fun n : Z => body_events j (env n) n in
  let F := fun n : Z => run_failure j (env n) in
  let evs := job_events FFMPEG_AVAILABLE env j w in
  trace (download_video FFMPEG_AVAILABLE env j w) = trace w ++ evs
  /\ exists fin : list event,
       (fin = [] \/ fin = [EvSetPercent vid 100])
       /\ ((F 1 = None /\ evs = b 1 ++ fin)
           \/ (exists m1, F 1 = Some m1 /\ F 2 = None
                 /\ evs = b 1 ++ retry_events vid m1 1 ++ b 2 ++ fin)
           \/ (exists m1 m2, F 1 = Some m1 /\ F 2 = Some m2 /\ F 3 = None
                 /\ evs = b 1 ++ retry_events vid m1 1 ++ b 2
                          ++ retry_events vid m2 2 ++ b 3 ++ fin)
           \/ (exists m1 m2 m3, F 1 = Some m1 /\ F 2 = Some m2 /\ F 3 = Some m3
                 /\ evs = b 1 ++ retry_events vid m1 1 ++ b 2
                          ++ retry_events vid m2 2 ++ b 3
                          ++ [EvWrite vid (error_record m3 (Some 3))]
                 /\ progress_data (download_video FFMPEG_AVAILABLE env j w) !! vid
                    = Some (error_record m3 (Some 3)))).
Proof.
  intros Hok vid b F evs. subst evs. unfold job_events, download_video. rewrite Hok.
  change (range_from_1 max_attempts) with [1; 2; 3].
  cbn [retry_loop]. rewrite try_body_spec. fold (F 1) (b 1) vid.
  destruct (F 1) as [m1|] eqn:F1.
  2: { destruct (ensure_percent_events vid
         {| progress_data := store_after vid (hook_records (run_ticks (env 1))) (progress_data w);
            trace := trace w ++ b 1 |}) as (fin & Ht & Hfin).
       rewrite Ht. cbn [trace]. rewrite <- app_assoc, drop_own_length.
       split; [reflexivity|]. exists fin. split; [exact Hfin|]. left. auto. }
  change (1 =? max_attempts) with false. cbn match.
  rewrite try_body_spec. fold (F 2) (b 2) vid.
  cbn [emit write progress_data trace].
  destruct (F 2) as [m2|] eqn:F2.
  2: { match goal with |- context [ensure_percent vid ?w0] =>
         destruct (ensure_percent_events vid w0) as (fin & Ht & Hfin) end.
       rewrite Ht. cbn [trace]. repeat rewrite <- app_assoc. rewrite drop_own_length.
       split; [reflexivity|]. exists fin. split; [exact Hfin|].
       right; left. exists m1. repeat split. }
  change (2 =? max_attempts) with false. cbn match.
  rewrite try_body_spec. fold (F 3) (b 3) vid.
  cbn [emit write progress_data trace].
  destruct (F 3) as [m3|] eqn:F3.
  2: { match goal with |- context [ensure_percent vid ?w0] =>
         destruct (ensure_percent_events vid w0) as (fin & Ht & Hfin) end.
       rewrite Ht. cbn [trace]. repeat rewrite <- app_assoc. rewrite drop_own_length.
       split; [reflexivity|]. exists fin. split; [exact Hfin|].
       right; right; left. exists m1, m2. repeat split. }
  change (3 =? max_attempts) with true. cbn match.
  cbn [emit write progress_data trace]. repeat rewrite <- app_assoc.
  rewrite drop_own_length. split; [reflexivity|]. exists []. split; [now left|].
  right; right; right. exists m1, m2, m3. repeat split. apply lookup_insert_eq.
Qed.

Lemma body_downloads (j : job) (run : attempt_run) (i : Z) :
  filter is_download (body_events j run i) = [attempt_start j i].
Proof.
  destruct (body_events_start j run i) as (rest & -> & Hr).
  rewrite filter_cons. cbn. now rewrite Hr.
Qed.


Lemma retry_downloads (vid : job_id) (m : string) (i : Z) :
  filter is_download (retry_events vid m i) = [].
Proof. reflexivity. Qed.

Lemma write_downloads (vid : job_id) (r : ProgressRecord) :
  filter is_download [EvWrite vid r] = [].
Proof. reflexivity. Qed.





(** ** The record a successful job leaves *)

Lemma store_after_lookup (vid : job_id) (records : list ProgressRecord)
    (pd : gmap job_id ProgressRecord) :
  store_after vid records pd !! vid
  = match last records with Some r => Some r | None => pd !! vid end.
Proof.
  revert pd. induction records as [|r records IH]; intros pd; [reflexivity|].
  cbn [store_after fold_left]. fold (store_after vid records (<[vid:=r]> pd)).
  rewrite IH, last_cons. destruct (last records); [reflexivity|].
  apply lookup_insert_eq.
Qed.

Lemma ensure_percent_lookup (vid : job_id) (w : world) :
  progress_data (ensure_percent vid w) !! vid
  = ensure_percent_record <$> progress_data w !! vid.
Proof.
  unfold ensure_percent.
  destruct (progress_data w !! vid) as [r|] eqn:E; [|now rewrite E].
  change (ensure_percent_record <$> Some r) with (Some (ensure_percent_record r)).
  unfold ensure_percent_record.
  destruct (String.eqb (status r) "finished"); cbn [progress_data].
  - now rewrite lookup_insert_eq.
  - now rewrite E.
Qed.

(** The hook stores [finished_record] for a ['finished'] tick and for no
    other tick. *)
Lemma hook_record_finished (d : Tick) (r : ProgressRecord) :
  hook_record d = Some r ->
  (status r = "finished"%string <-> tick_status d = "finished"%string)
  /\ (status r = "finished"%string -> r = finished_record).
Proof.
  unfold hook_record.
  destruct (String.eqb_spec (tick_status d) "downloading") as [E|E].
  { intros [= <-]. rewrite E. cbn. split; [split|]; discriminate. }
  destruct (String.eqb_spec (tick_status d) "finished") as [E1|E1].
  { intros [= <-]. cbn. tauto. }
  destruct (String.eqb_spec (tick_status d) "error") as [E2|E2]; [|discriminate].
  intros [= <-]. rewrite E2. cbn. split; [split|]; discriminate.
Qed.

(** The record in the store after a success at attempt [n]. *)
Lemma final_record_after_success (FFMPEG_AVAILABLE : bool) (env : engine) (j : job)
    (w : world) (n : Z) :
  job_extract_audio j && negb FFMPEG_AVAILABLE = false ->
  1 <= n <= 3 ->
  (forall k : Z, 1 <= k < n -> run_failure j (env k) <> None) ->
  run_failure j (env n) = None ->
  progress_data (download_video FFMPEG_AVAILABLE env j w) !! job_video_id j
  = ensure_percent_record
      <$> match last (hook_records (run_ticks (env n))) with
          | Some r => Some r
          | None => if n =? 1 then progress_data w !! job_video_id j
                    else Some starting_record
          end.
Proof.
  intros Hok Hn Hfail Hsucc. set (vid := job_video_id j).
  unfold download_video. rewrite Hok.
  change (range_from_1 max_attempts) with [1; 2; 3].
  cbn [retry_loop]. rewrite try_body_spec. fold vid.
  destruct (Z.eq_dec n 1) as [->|N1].
  { rewrite Hsucc. rewrite ensure_percent_lookup. cbn [progress_data].
    now rewrite store_after_lookup. }
  destruct (run_failure j (env 1)) as [m1|] eqn:F1;
    [|exfalso; apply (Hfail 1); [lia|exact F1]].
  change (1 =? max_attempts) with false. cbn match.
  rewrite try_body_spec. fold vid. cbn [emit write progress_data trace].
  destruct (Z.eq_dec n 2) as [->|N2].
  { rewrite Hsucc. rewrite ensure_percent_lookup. cbn [progress_data].
    rewrite store_after_lookup, lookup_insert_eq. reflexivity. }
  destruct (run_failure j (env 2)) as [m2|] eqn:F2;
    [|exfalso; apply (Hfail 2); [lia|exact F2]].
  change (2 =? max_attempts) with false. cbn match.
  rewrite try_body_spec. fold vid. cbn [emit write progress_data trace].
  assert (n = 3) as -> by lia.
  rewrite Hsucc. rewrite ensure_percent_lookup. cbn [progress_data].
  rewrite store_after_lookup, lookup_insert_eq. reflexivity.
Qed.

(** C3, as the code has it.  The orchestrator stores no [finished] record
    of its own: after a success at attempt [n] it only sets the percent of
    a record that is already [finished].  What the job leaves is the last
    record the hook stored during attempt [n], or, when the hook stored
    none, the [starting] record of the retry ([n > 1]) or the record that
    was there before the job ([n = 1]).  So the job ends on status
    [finished] with percent 100 when the last tick that stores a record is
    a ['finished'] tick. *)
Theorem success_final_record (FFMPEG_AVAILABLE : bool) (env : engine) (j : job)
    (w : world) (n : Z) :
  job_extract_audio j && negb FFMPEG_AVAILABLE = false ->
  1 <= n <= 3 ->
  (forall k : Z, 1 <= k < n -> run_failure j (env k) <> None) ->
  run_failure j (env n) = None ->
  let vid := job_video_id j in
  let final := progress_data (download_video FFMPEG_AVAILABLE env j w) !! vid in
  let last_record := last (hook_records (run_ticks (env n))) in
  final = ensure_percent_record
            <$> match last_record with
                | Some r => Some r
                | None => if n =? 1 then progress_data w !! vid else Some starting_record
                end
  /\ (last_record = Some finished_record ->
      final = Some finished_record
      /\ status finished_record = "finished"%string
      /\ percent finished_record = Some 100).
Proof.
  intros Hok Hn Hfail Hsucc vid final last_record.
  pose proof (final_record_after_success FFMPEG_AVAILABLE env j w n Hok Hn Hfail Hsucc)
    as G.
  fold vid final last_record in G.
  split; [exact G|]. intros Hl. rewrite G, Hl. repeat split.
Qed.

Lemma success_final_record_witness :
  let j := sample_job false in
  let final := progress_data (download_video true flaky_engine j started_world)
               !! job_video_id j in
  let last_record := last (hook_records (run_ticks (flaky_engine 3))) in
  final = ensure_percent_record
            <$> match last_record with
                | Some r => Some r
                | None => if 3 =? 1 then progress_data started_world !! job_video_id j
                          else Some starting_record
                end
  /\ (last_record = Some finished_record ->
      final = Some finished_record
      /\ status finished_record = "finished"%string
      /\ percent finished_record = Some 100).
Proof.
  apply (success_final_record true flaky_engine (sample_job false) started_world 3).
  - reflexivity.
  - lia.
  - intros k Hk. assert (k = 1 \/ k = 2) as [-> | ->] by lia; discriminate.
  - reflexivity.
Defined.

(** C3 as stated fails: a download that returns without a hook call, as
    when there is nothing to fetch, leaves the job on [starting] for
    ever. *)
Lemma success_without_tick_counterexample :
  let j := sample_job false in
  let final := progress_data (download_video true silent_engine j started_world)
               !! job_video_id j in
  run_failure j (silent_engine 1) = None
  /\ final = Some starting_record
  /\ status starting_record <> "finished"%string
  /\ percent starting_record <> Some 100.
Proof.
  cbv zeta. split; [reflexivity|]. split; [|split; discriminate].
  rewrite (final_record_after_success true silent_engine (sample_job false)
             started_world 1); [reflexivity|reflexivity|lia|intros k Hk; lia|reflexivity].
Qed.

(** ** binary64 rounding keeps small integer bounds *)

Lemma round_half_even_le (q : Q) (K : Z) :
  (q <= inject_Z K)%Q -> round_half_even q <= K.
Proof.
  intros H. unfold round_half_even.
  pose proof (Qfloor_resp_le _ _ H) as Hf. rewrite Qfloor_Z in Hf.
  pose proof (Qfloor_le q) as Hq.
  assert (N : (1 # 2 <= q - inject_Z (Qfloor q))%Q -> Qfloor q <> K).
  { intros G E. rewrite E in G. lra. }
  destruct (Qcompare_spec (q - inject_Z (Qfloor q)) (1 # 2)) as [E|E|E].
  - destruct (Z.even (Qfloor q)); [lia|].
    assert (Qfloor q <> K) by (apply N; rewrite E; apply Qle_refl). lia.
  - lia.
  - assert (Qfloor q <> K) by (apply N; now apply Qlt_le_weak). lia.
Qed.

Lemma round_half_even_nonneg (q : Q) : (0 <= q)%Q -> 0 <= round_half_even q.
Proof.
  intros H. unfold round_half_even.
  pose proof (Qfloor_resp_le _ _ H) as Hf. change (Qfloor 0) with 0 in Hf.
  destruct (Qcompare (q - inject_Z (Qfloor q)) (1 # 2));
    [destruct (Z.even (Qfloor q))| |]; lia.
Qed.

Lemma pow2_pos (e : Z) : (0 < pow2 e)%Q.
Proof. unfold pow2. apply Qpower_0_lt. reflexivity. Qed.

Lemma pow2_nonneg_exp (k : Z) : 0 <= k -> (pow2 k == inject_Z (2 ^ k))%Q.
Proof. intros H. unfold pow2. now rewrite Zpower_Qpower. Qed.

Lemma pow2_inv (e : Z) : e <= 0 -> (inject_Z (2 ^ (- e)) * pow2 e == 1)%Q.
Proof.
  intros H. rewrite <- pow2_nonneg_exp by lia. unfold pow2.
  rewrite Qpower_opp. rewrite Qmult_comm. apply Qmult_inv_r.
  apply Qpower_not_0. discriminate.
Qed.

(** Below [2^53] the last place of the significand is at most the units. *)
Lemma ulp_exp_small (x : Q) :
  (0 < x)%Q -> (x < inject_Z (2 ^ 53))%Q -> ulp_exp x <= 0.
Proof.
  intros Hpos Hlt. unfold ulp_exp.
  set (k := Z.log2 (Qnum x) - Z.log2 (Z.pos (Qden x))).
  destruct (Qle_bool (pow2 k) x) eqn:E.
  - apply Qle_bool_iff in E.
    destruct (Z_le_gt_dec k 52) as [L|G]; [lia|]. exfalso.
    rewrite pow2_nonneg_exp in E by lia.
    assert (P : 2 ^ 53 <= 2 ^ k) by (apply Z.pow_le_mono_r; lia).
    rewrite Zle_Qle in P. lra.
  - destruct x as [n d]. cbn [Qnum Qden] in k.
    assert (Hn : 0 < n).
    { unfold Qlt in Hpos. cbn in Hpos. lia. }
    assert (Hnd : n < 2 ^ 53 * Z.pos d).
    { unfold Qlt in Hlt. cbn [Qnum Qden inject_Z] in Hlt. lia. }
    destruct (Z.log2_spec n Hn) as [Ha _].
    destruct (Z.log2_spec (Z.pos d) (Pos2Z.pos_is_pos d)) as [_ Hb].
    pose proof (Z.log2_nonneg n) as A0.
    pose proof (Z.log2_nonneg (Z.pos d)) as B0.
    assert (T : 2 ^ Z.log2 n < 2 ^ (54 + Z.log2 (Z.pos d))).
    { replace (54 + Z.log2 (Z.pos d)) with (53 + Z.succ (Z.log2 (Z.pos d))) by lia.
      rewrite Z.pow_add_r by lia.
      assert (0 < 2 ^ 53) by (apply Z.pow_pos_nonneg; lia). nia. }
    apply Z.pow_lt_mono_r_iff in T; lia.
Qed.

Lemma rnd_nonneg (x : Q) : (0 <= x)%Q -> (0 <= rnd x)%Q.
Proof.
  intros H. unfold rnd. destruct (Qeq_bool x 0); [apply Qle_refl|].
  rewrite Qred_correct. apply Qmult_le_0_compat.
  - change 0%Q with (inject_Z 0). rewrite <- Zle_Qle.
    apply round_half_even_nonneg. apply Qle_shift_div_l; [apply pow2_pos|].
    now rewrite Qmult_0_l.
  - apply Qlt_le_weak, pow2_pos.
Qed.

Lemma Qabs_positive (x : Q) : (0 < x)%Q -> Qabs x = x.
Proof.
  destruct x as [[|p|p] d]; intros H; try reflexivity; unfold Qlt in H; cbn in H; lia.
Qed.

(** Rounding does not cross an integer that binary64 represents. *)
Lemma rnd_le_int (x : Q) (B : Z) :
  0 < B < 2 ^ 53 -> (0 <= x)%Q -> (x <= inject_Z B)%Q -> (rnd x <= inject_Z B)%Q.
Proof.
  intros HB H0 Hx. unfold rnd. destruct (Qeq_bool x 0) eqn:E.
  { change 0%Q with (inject_Z 0). rewrite <- Zle_Qle. lia. }
  apply Qeq_bool_neq in E.
  assert (Hpos : (0 < x)%Q).
  { apply Qle_lt_or_eq in H0 as [H0|H0]; [exact H0|]. exfalso. apply E. now symmetry. }
  rewrite (Qabs_positive x Hpos).
  assert (He : ulp_exp x <= 0).
  { apply ulp_exp_small; [exact Hpos|].
    apply Qle_lt_trans with (inject_Z B); [exact Hx|]. rewrite <- Zlt_Qlt. lia. }
  set (e := ulp_exp x) in *.
  rewrite Qred_correct.
  assert (Hq : (x / pow2 e <= inject_Z (B * 2 ^ (- e)))%Q).
  { apply Qle_shift_div_r; [apply pow2_pos|].
    rewrite inject_Z_mult, <- Qmult_assoc, pow2_inv by exact He.
    now rewrite Qmult_1_r. }
  apply round_half_even_le in Hq. rewrite Zle_Qle in Hq.
  apply Qle_trans with (inject_Z (B * 2 ^ (- e)) * pow2 e)%Q.
  - apply Qmult_le_compat_r; [exact Hq|apply Qlt_le_weak, pow2_pos].
  - rewrite inject_Z_mult, <- Qmult_assoc, pow2_inv by exact He.
    rewrite Qmult_1_r. apply Qle_refl.
Qed.

Lemma py_int_bounds (x : Q) (B : Z) :
  (0 <= x)%Q -> (x <= inject_Z B)%Q -> 0 <= py_int x <= B.
Proof.
  destruct x as [n d]. unfold py_int, Qle. cbn [Qnum Qden inject_Z]. intros H0 HB.
  assert (Hn : 0 <= n) by lia. split.
  - apply Z.quot_pos; lia.
  - rewrite Z.quot_div_nonneg by lia. apply Z.div_le_upper_bound; lia.
Qed.

(** The percent of a tick whose byte count is within its total. *)
Lemma percent_of_bounds (downloaded total : Q) :
  (0 <= downloaded)%Q -> (downloaded <= total)%Q ->
  0 <= percent_of downloaded (Some total) <= 100.
Proof.
  intros H0 Ht. unfold percent_of. destruct (nonzero total) eqn:E; [|lia].
  unfold nonzero in E. apply negb_true_iff, Qeq_bool_neq in E.
  assert (Hpos : (0 < total)%Q).
  { assert (G : (0 <= total)%Q) by lra.
    apply Qle_lt_or_eq in G as [G|G]; [exact G|]. exfalso. apply E. now symmetry. }
  assert (Q0 : (0 <= downloaded / total)%Q).
  { apply Qle_shift_div_l; [exact Hpos|]. now rewrite Qmult_0_l. }
  assert (Q1 : (downloaded / total <= inject_Z 1)%Q).
  { apply Qle_shift_div_r; [exact Hpos|]. change (inject_Z 1) with 1%Q. lra. }
  unfold fmul, fdiv.
  pose proof (rnd_nonneg _ Q0) as R0.
  pose proof (rnd_le_int _ 1 ltac:(lia) Q0 Q1) as R1. change (inject_Z 1) with 1%Q in R1.
  assert (P0 : (0 <= rnd (downloaded / total) * 100)%Q) by lra.
  assert (P1 : (rnd (downloaded / total) * 100 <= inject_Z 100)%Q).
  { change (inject_Z 100) with 100%Q. lra. }
  apply py_int_bounds; [now apply rnd_nonneg|].
  apply rnd_le_int; [lia|exact P0|exact P1].
Qed.

(** ** The percent of the records *)

Lemma hook_record_percent (d : Tick) (r : ProgressRecord) :
  tick_within_total d -> hook_record d = Some r -> percent_ok r.
Proof.
  unfold hook_record, tick_within_total. intros Hd.
  destruct (String.eqb_spec (tick_status d) "downloading") as [Es|Es].
  { intros [= <-]. unfold percent_ok, downloading_record. cbn [percent].
    destruct (num_or (tick_total_bytes d) (tick_total_bytes_estimate d)) as [t|];
      [|cbn; lia].
    destruct (nonzero t) eqn:Et; [|unfold percent_of; rewrite Et; lia].
    destruct (Hd Es t eq_refl Et) as [H0 Ht]. now apply percent_of_bounds. }
  destruct (String.eqb (tick_status d) "finished").
  { intros [= <-]. cbn. lia. }
  destruct (String.eqb (tick_status d) "error"); [|discriminate].
  intros [= <-]. exact I.
Qed.

Lemma write_percent_ok (vid : job_id) (r : ProgressRecord) (w : world) :
  percent_ok r -> world_percent_ok w -> world_percent_ok (write vid r w).
Proof.
  intros Hr [Hs Ht]. split; cbn [write progress_data trace].
  - now apply map_Forall_insert_2.
  - apply Forall_app. split; [exact Ht|]. constructor; [exact Hr|constructor].
Qed.

Lemma emit_percent_ok (e : event) (w : world) :
  event_percent_ok e -> world_percent_ok w -> world_percent_ok (emit e w).
Proof.
  intros He [Hs Ht]. split; cbn [emit progress_data trace]; [exact Hs|].
  apply Forall_app. split; [exact Ht|]. constructor; [exact He|constructor].
Qed.

Lemma progress_hook_percent_ok (vid : job_id) (d : Tick) (w : world) :
  tick_within_total d -> world_percent_ok w -> world_percent_ok (progress_hook vid d w).
Proof.
  intros Hd Hw. unfold progress_hook. destruct (hook_record d) as [r|] eqn:E; [|exact Hw].
  apply write_percent_ok; [|exact Hw]. now apply (hook_record_percent d).
Qed.

Lemma hooks_percent_ok (vid : job_id) (ticks : list Tick) (w : world) :
  Forall tick_within_total ticks -> world_percent_ok w ->
  world_percent_ok (fold_left (fun w d => progress_hook vid d w) ticks w).
Proof.
  intros H. revert w. induction H as [|d ticks Hd Ht IH]; intros w Hw; [exact Hw|].
  cbn [fold_left]. apply IH. now apply progress_hook_percent_ok.
Qed.

Lemma try_body_percent_ok (j : job) (run : attempt_run) (attempt : Z) (w : world) :
  Forall tick_within_total (run_ticks run) -> world_percent_ok w ->
  world_percent_ok (snd (try_body j run attempt w)).
Proof.
  intros Ht Hw. unfold try_body.
  match goal with |- context [fold_left ?f (run_ticks run) ?w0] =>
    assert (H1 : world_percent_ok (fold_left f (run_ticks run) w0))
      by (apply hooks_percent_ok; [exact Ht|now apply emit_percent_ok]);
    set (w1 := fold_left f (run_ticks run) w0) in *
  end.
  destruct (run_download run) as [[]|msg]; [|exact H1].
  destruct ((truthy_str (job_start_time j) || truthy_str (job_end_time j))
            && negb (job_extract_audio j)); [|exact H1].
  destruct (run_trim run) as [[|]|msg];
    [destruct (run_replace run) as [[]|msg]| |]; cbn [snd];
    repeat apply emit_percent_ok; try exact I; exact H1.
Qed.

Lemma percent_ok_error (msg : string) (attempt : option Z) :
  percent_ok (error_record msg attempt).
Proof. exact I. Qed.

Lemma percent_ok_starting : percent_ok starting_record.
Proof. cbn. lia. Qed.

Lemma retry_loop_percent_ok (j : job) (env : engine) (attempts : list Z) (w : world) :
  (forall n : Z, Forall tick_within_total (run_ticks (env n))) ->
  world_percent_ok w -> world_percent_ok (snd (retry_loop j env attempts w)).
Proof.
  intros Ht. revert w. induction attempts as [|a attempts IH]; intros w Hw; [exact Hw|].
  cbn [retry_loop].
  pose proof (try_body_percent_ok j (env a) a w (Ht a) Hw) as Hb.
  destruct (try_body j (env a) a w) as [[msg|] w1]; cbn [snd] in Hb; [|exact Hb].
  assert (He : world_percent_ok (write (job_video_id j) (error_record msg (Some a)) w1)).
  { apply write_percent_ok; [apply percent_ok_error|exact Hb]. }
  destruct (a =? max_attempts); [exact He|].
  apply IH. apply write_percent_ok; [apply percent_ok_starting|].
  apply emit_percent_ok; [exact I|exact He].
Qed.

Lemma ensure_percent_ok (vid : job_id) (w : world) :
  world_percent_ok w -> world_percent_ok (ensure_percent vid w).
Proof.
  intros [Hs Ht]. unfold ensure_percent.
  destruct (progress_data w !! vid) as [r|]; [|now split].
  destruct (String.eqb (status r) "finished"); [|now split].
  split; cbn [progress_data trace].
  - apply map_Forall_insert_2; [cbn; lia|exact Hs].
  - apply Forall_app. split; [exact Ht|]. constructor; [cbn; lia|constructor].
Qed.

(** C4, as the code has it.  The percent of a record is an integer that
    nothing clamps.  It is within 0..100 on every record the hook stores
    for a tick whose byte count is within its total, and then on every
    record a run of [download_video] or the handler stores and leaves in
    the store. *)
Theorem percent_within_bounds :
  (forall (d : Tick) (r : ProgressRecord),
      tick_within_total d -> hook_record d = Some r -> percent_ok r)
  /\ (forall (FFMPEG_AVAILABLE : bool) (env : engine) (j : job) (w : world),
        (forall n : Z, Forall tick_within_total (run_ticks (env n))) ->
        world_percent_ok w ->
        world_percent_ok (download_video FFMPEG_AVAILABLE env j w))
  /\ (forall (video_store : gmap job_id (list Format)) (file_exists : string -> bool)
             (req : request) (w : world),
        world_percent_ok w ->
        world_percent_ok (snd (start_download video_store file_exists req w))).
Proof.
  split; [exact hook_record_percent|]. split.
  - intros ffmpeg env j w Ht Hw. unfold download_video.
    destruct (job_extract_audio j && negb ffmpeg).
    { apply write_percent_ok; [apply percent_ok_error|exact Hw]. }
    pose proof (retry_loop_percent_ok j env (range_from_1 max_attempts) w Ht Hw) as H.
    destruct (retry_loop j env (range_from_1 max_attempts) w) as [[| |] w1];
      cbn [snd] in H; [|exact H|]; now apply ensure_percent_ok.
  - intros vs fe req w Hw. unfold start_download.
    destruct (truthy_str (form_start_time req) && negb (valid_time_format (form_start_time req)));
      [now apply emit_percent_ok|].
    destruct (truthy_str (form_end_time req) && negb (valid_time_format (form_end_time req)));
      [now apply emit_percent_ok|].
    destruct (session_video_title req) as [title|]; [|exact Hw].
    match goal with |- context [if fe ?p then _ else _] => destruct (fe p) end;
      [exact Hw|].
    cbn [snd]. apply emit_percent_ok; [exact I|].
    apply write_percent_ok; [apply percent_ok_starting|exact Hw].
Qed.

Lemma empty_world_percent_ok : world_percent_ok empty_world.
Proof. split; [apply map_Forall_empty|constructor]. Qed.

Lemma percent_within_bounds_witness :
  world_percent_ok (download_video true steady_engine (sample_job false) empty_world).
Proof.
  apply (proj1 (proj2 percent_within_bounds)).
  - intros n. constructor; [|constructor; [|constructor]].
    + intros _ t [= <-] _. split; discriminate.
    + intros H. discriminate H.
  - exact empty_world_percent_ok.
Defined.

(** The quotient and the product are binary64 operations: 29 bytes of 100
    are 28 percent, since 0.29 * 100 is 28.999999999999996. *)
Lemma percent_29_of_100 : percent_of 29 (Some 100%Q) = 28.
Proof. vm_compute. reflexivity. Qed.

(** C4 as stated fails: a tick that has fetched 150 bytes of an estimated
    100 is stored with percent 150. *)
Lemma percent_above_100_counterexample :
  (percent <$> hook_record tick_over) = Some (Some 150)
  /\ ~ (forall r : ProgressRecord, hook_record tick_over = Some r -> percent_ok r).
Proof.
  split; [vm_compute; reflexivity|].
  intros H. specialize (H (downloading_record tick_over) eq_refl).
  vm_compute in H. destruct H as [_ H]. apply H. reflexivity.
Qed.

(** * Further properties *)

(** ** [choose_720p_or_nearest] *)

Lemma max_by_height_spec (l : list RawFormat) (best : RawFormat) :
  max_by_height best l ∈ best :: l
  /\ Forall (fun g => raw_height_or_zero g <= raw_height_or_zero (max_by_height best l))
       (best :: l).
Proof.
  revert best. induction l as [|g l IH]; intros best; unfold max_by_height; cbn [fold_left].
  - split; [left|]. repeat constructor. lia.
  - fold (max_by_height
            (if raw_height_or_zero best <? raw_height_or_zero g then g else best) l).
    destruct (Z.ltb_spec (raw_height_or_zero best) (raw_height_or_zero g)) as [L|L].
    + destruct (IH g) as [Hin Hall]. split; [right; exact Hin|].
      inversion Hall as [|? ? Hg Hl]; subst.
      constructor; [lia|]. constructor; assumption.
    + destruct (IH best) as [Hin Hall]. split.
      * apply elem_of_cons in Hin as [->|Hin]; [left|right; right; exact Hin].
      * inversion Hall as [|? ? Hb Hl]; subst.
        constructor; [exact Hb|]. constructor; [lia|exact Hl].
Qed.

Lemma find_720_none (formats : list RawFormat) :
  find has_height_720 formats = None ->
  Forall (fun f => raw_height f <> Some 720) formats.
Proof.
  intros H. apply Forall_forall. intros f Hf E.
  apply list_elem_of_In in Hf.
  apply (find_none _ _ H) in Hf. unfold has_height_720 in Hf. now rewrite E in Hf.
Qed.

(** X1.  The choice is a format of the list, and there is one unless the
    list is empty. *)
Theorem choose_720p_member (formats : list RawFormat) :
  (choose_720p_or_nearest formats = None <-> formats = [])
  /\ (forall f : RawFormat, choose_720p_or_nearest formats = Some f -> f ∈ formats).
Proof.
  unfold choose_720p_or_nearest. destruct formats as [|f0 fs]; [split; [tauto|discriminate]|].
  set (formats := f0 :: fs).
  assert (Hsub : forall (p : RawFormat -> bool) x, x ∈ List.filter p formats -> x ∈ formats).
  { intros p x Hx. apply list_elem_of_In in Hx. apply filter_In in Hx as [Hx _].
    now apply list_elem_of_In. }
  destruct (find has_height_720 formats) as [f|] eqn:Hfind.
  { split; [split; discriminate|]. intros g [= <-].
    apply find_some in Hfind as [Hin _]. now apply list_elem_of_In. }
  destruct (List.filter raw_height_truthy formats) as [|c cs] eqn:Hc.
  { split.
    - split; [|discriminate]. intros H. unfold formats in H.
      rewrite last_cons in H. destruct (last fs); discriminate.
    - intros g Hg. apply last_Some in Hg as [l' ->]. apply elem_of_app. right. left. }
  destruct (List.filter (fun f => raw_height_or_zero f <=? 720) (c :: cs)) as [|l ls] eqn:Hl.
  - split; [split; discriminate|]. intros g [= <-].
    destruct (max_by_height_spec cs c) as [Hin _].
    apply (Hsub raw_height_truthy). rewrite Hc. exact Hin.
  - split; [split; discriminate|]. intros g [= <-].
    destruct (max_by_height_spec ls l) as [Hin _].
    apply (Hsub raw_height_truthy). rewrite Hc.
    rewrite <- Hl in Hin. apply list_elem_of_In in Hin. apply filter_In in Hin as [Hin _].
    now apply list_elem_of_In.
Qed.

(** X2.  When some format has a height that is not 0 and at most 720,
    the choice is the highest of these: its height is at most 720 and no
    format up to 720 is higher. *)
Theorem choose_720p_highest_below (formats : list RawFormat) (g : RawFormat) (hg : Z) :
  g ∈ formats -> raw_height g = Some hg -> hg <> 0 -> hg <= 720 ->
  exists (f : RawFormat) (h : Z),
    choose_720p_or_nearest formats = Some f
    /\ raw_height f = Some h /\ h <> 0 /\ hg <= h <= 720.
Proof.
  intros Hg Eg Hnz Hle. unfold choose_720p_or_nearest.
  destruct formats as [|f0 fs]; [inversion Hg|]. set (formats := f0 :: fs) in *.
  destruct (find has_height_720 formats) as [f|] eqn:Hfind.
  { apply find_some in Hfind as [_ Hf]. unfold has_height_720 in Hf.
    destruct (raw_height f) as [h|] eqn:Eh; [|discriminate].
    apply Z.eqb_eq in Hf. subst h. exists f, 720. repeat split; try assumption; lia. }
  assert (Gc : g ∈ List.filter raw_height_truthy formats).
  { apply list_elem_of_In, filter_In. split; [now apply list_elem_of_In|].
    unfold raw_height_truthy. rewrite Eg. now apply negb_true_iff, Z.eqb_neq. }
  destruct (List.filter raw_height_truthy formats) as [|c cs] eqn:Hc; [inversion Gc|].
  assert (Gl : g ∈ List.filter (fun f => raw_height_or_zero f <=? 720) (c :: cs)).
  { apply list_elem_of_In, filter_In. split; [now apply list_elem_of_In|].
    unfold raw_height_or_zero. rewrite Eg. now apply Z.leb_le. }
  destruct (List.filter (fun f => raw_height_or_zero f <=? 720) (c :: cs)) as [|l ls] eqn:Hl;
    [inversion Gl|].
  destruct (max_by_height_spec ls l) as [Hin Hall].
  set (m := max_by_height l ls) in *.
  rewrite Forall_forall in Hall. specialize (Hall g Gl).
  rewrite <- Hl in Hin. apply list_elem_of_In, filter_In in Hin as [Hin Hm].
  rewrite <- Hc in Hin. apply filter_In in Hin as [_ Ht].
  unfold raw_height_truthy in Ht. unfold raw_height_or_zero in Hall, Hm.
  rewrite Eg in Hall. destruct (raw_height m) as [h|] eqn:Eh; [|discriminate].
  apply Z.leb_le in Hm. apply negb_true_iff, Z.eqb_neq in Ht.
  exists m, h. repeat split; try assumption; lia.
Qed.

Lemma choose_720p_highest_below_witness :
  exists (f : RawFormat) (h : Z),
    choose_720p_or_nearest [raw_360; raw_hd; raw_480] = Some f
    /\ raw_height f = Some h /\ h <> 0 /\ 360 <= h <= 720.
Proof.
  apply (choose_720p_highest_below [raw_360; raw_hd; raw_480] raw_360 360).
  - left.
  - reflexivity.
  - lia.
  - lia.
Defined.

(** X3.  When every height that is not 0 is above 720, the choice is the
    highest format of all, not the one nearest to 720. *)
Theorem choose_720p_highest_above (formats : list RawFormat) (g : RawFormat) (hg : Z) :
  g ∈ formats -> raw_height g = Some hg -> hg <> 0 ->
  (forall (x : RawFormat) (hx : Z),
      x ∈ formats -> raw_height x = Some hx -> hx <> 0 -> 720 < hx) ->
  exists (f : RawFormat) (h : Z),
    choose_720p_or_nearest formats = Some f
    /\ raw_height f = Some h
    /\ (forall (x : RawFormat) (hx : Z), x ∈ formats -> raw_height x = Some hx -> hx <= h).
Proof.
  intros Hg Eg Hnz Habove. unfold choose_720p_or_nearest.
  destruct formats as [|f0 fs]; [inversion Hg|]. set (formats := f0 :: fs) in *.
  destruct (find has_height_720 formats) as [f|] eqn:Hfind.
  { exfalso. apply find_some in Hfind as [Hin Hf]. unfold has_height_720 in Hf.
    destruct (raw_height f) as [h|] eqn:Eh; [|discriminate].
    apply Z.eqb_eq in Hf. subst h.
    apply list_elem_of_In in Hin. specialize (Habove f 720 Hin Eh). lia. }
  assert (Gc : g ∈ List.filter raw_height_truthy formats).
  { apply list_elem_of_In, filter_In. split; [now apply list_elem_of_In|].
    unfold raw_height_truthy. rewrite Eg. now apply negb_true_iff, Z.eqb_neq. }
  destruct (List.filter raw_height_truthy formats) as [|c cs] eqn:Hc; [inversion Gc|].
  destruct (List.filter (fun f => raw_height_or_zero f <=? 720) (c :: cs)) as [|l ls] eqn:Hl.
  2: { exfalso. assert (Hin : l ∈ l :: ls) by left.
       rewrite <- Hl in Hin. apply list_elem_of_In, filter_In in Hin as [Hin Hm].
       rewrite <- Hc in Hin. apply filter_In in Hin as [Hin Ht].
       unfold raw_height_truthy in Ht. unfold raw_height_or_zero in Hm.
       destruct (raw_height l) as [h|] eqn:Eh; [|discriminate].
       apply Z.leb_le in Hm. apply negb_true_iff, Z.eqb_neq in Ht.
       apply list_elem_of_In in Hin. specialize (Habove l h Hin Eh Ht). lia. }
  destruct (max_by_height_spec cs c) as [Hin Hall].
  set (m := max_by_height c cs) in *. rewrite Forall_forall in Hall.
  assert (Hm : m ∈ formats /\ raw_height_truthy m = true).
  { rewrite <- Hc in Hin. apply list_elem_of_In, filter_In in Hin as [Hin Ht].
    split; [now apply list_elem_of_In|exact Ht]. }
  destruct Hm as [Hmin Hmt]. unfold raw_height_truthy in Hmt.
  destruct (raw_height m) as [h|] eqn:Eh; [|discriminate].
  apply negb_true_iff, Z.eqb_neq in Hmt.
  pose proof (Habove m h Hmin Eh Hmt) as Hh.
  exists m, h. split; [reflexivity|]. split; [exact Eh|]. intros x hx Hx Ex.
  destruct (Z.eq_dec hx 0) as [->|Nx]; [lia|].
  assert (Xc : x ∈ c :: cs).
  { rewrite <- Hc. apply list_elem_of_In, filter_In. split; [now apply list_elem_of_In|].
    unfold raw_height_truthy. rewrite Ex. now apply negb_true_iff, Z.eqb_neq. }
  specialize (Hall x Xc). unfold raw_height_or_zero in Hall. now rewrite Ex, Eh in Hall.
Qed.

Lemma choose_720p_highest_above_witness :
  exists (f : RawFormat) (h : Z),
    choose_720p_or_nearest [raw_hd; raw_audio] = Some f
    /\ raw_height f = Some h
    /\ (forall (x : RawFormat) (hx : Z),
          x ∈ [raw_hd; raw_audio] -> raw_height x = Some hx -> hx <= h).
Proof.
  apply (choose_720p_highest_above [raw_hd; raw_audio] raw_hd 1080).
  - left.
  - reflexivity.
  - lia.
  - intros x hx Hx Ex Hn. apply elem_of_cons in Hx as [->|Hx].
    + injection Ex as <-. lia.
    + apply list_elem_of_singleton in Hx. subst x. discriminate Ex.
Defined.

(** X4.  When no format has a height other than 0, as for a page with
    audio only, the choice is the last format of the list. *)
Theorem choose_720p_no_height (formats : list RawFormat) :
  Forall (fun f => raw_height_truthy f = false) formats ->
  choose_720p_or_nearest formats = last formats.
Proof.
  intros H. unfold choose_720p_or_nearest. destruct formats as [|f0 fs]; [reflexivity|].
  set (formats := f0 :: fs) in *.
  destruct (find has_height_720 formats) as [f|] eqn:Hfind.
  { exfalso. apply find_some in Hfind as [Hin Hf]. rewrite Forall_forall in H.
    apply list_elem_of_In in Hin. specialize (H f Hin).
    unfold has_height_720 in Hf. unfold raw_height_truthy in H.
    destruct (raw_height f) as [h|]; [|discriminate].
    apply Z.eqb_eq in Hf. subst h. discriminate H. }
  destruct (List.filter raw_height_truthy formats) as [|c cs] eqn:Hc; [reflexivity|].
  exfalso. assert (Hin : c ∈ c :: cs) by left. rewrite <- Hc in Hin.
  apply list_elem_of_In, filter_In in Hin as [Hin Ht]. rewrite Forall_forall in H.
  apply list_elem_of_In in Hin. specialize (H c Hin). congruence.
Qed.

Lemma choose_720p_no_height_witness :
  choose_720p_or_nearest [raw_audio; raw_audio] = last [raw_audio; raw_audio].
Proof.
  apply (choose_720p_no_height [raw_audio; raw_audio]). repeat constructor.
Defined.

(** ** [sanitize_filename], once more *)

Lemma re_sub_underscore_forall (s : string) :
  str_forall filename_char (re_sub_class (fun c => negb (filename_char c)) "_" s) = true.
Proof.
  induction s as [|c s IH]; [reflexivity|]. cbn [re_sub_class].
  destruct (filename_char c) eqn:E; cbn [negb].
  - cbn [str_forall]. now rewrite E, IH.
  - change (str_forall filename_char
              (String "_" (re_sub_class (fun c => negb (filename_char c)) "_" s)) = true).
    cbn [str_forall]. now rewrite IH.
Qed.

Lemma re_sub_fixed (s : string) :
  str_forall filename_char s = true ->
  re_sub_class (fun c => negb (filename_char c)) "_" s = s.
Proof.
  induction s as [|c s IH]; [reflexivity|]. cbn [str_forall re_sub_class].
  intros H. apply andb_true_iff in H as [Hc Hs]. rewrite Hc. cbn [negb]. now rewrite IH.
Qed.

Lemma str_take_forall (p : ascii -> bool) (n : nat) (s : string) :
  str_forall p s = true -> str_forall p (str_take n s) = true.
Proof.
  revert s. induction n as [|n IH]; intros [|c s]; cbn [str_take str_forall]; auto.
  intros H. apply andb_true_iff in H as [Hc Hs]. now rewrite Hc, IH.
Qed.

Lemma str_take_twice (n : nat) (s : string) : str_take n (str_take n s) = str_take n s.
Proof.
  revert s. induction n as [|n IH]; intros [|c s]; cbn [str_take]; auto.
  now rewrite IH.
Qed.

(** X5.  A sanitised name consists of allow-list characters only, and
    sanitising it again changes nothing. *)
Theorem sanitize_filename_idempotent (name : string) :
  str_forall filename_char (sanitize_filename name) = true
  /\ sanitize_filename (sanitize_filename name) = sanitize_filename name.
Proof.
  assert (H : str_forall filename_char (sanitize_filename name) = true).
  { unfold sanitize_filename. apply str_take_forall, re_sub_underscore_forall. }
  split; [exact H|].
  unfold sanitize_filename at 1. rewrite (re_sub_fixed _ H).
  unfold sanitize_filename. apply str_take_twice.
Qed.

(** ** [process_formats], once more *)

Lemma dict_set_elem (k : dedup_key) (v : Format) (d : list (dedup_key * Format))
    (kv : dedup_key * Format) :
  NoDup (map fst d) -> kv ∈ dict_set k v d ->
  kv = (k, v) \/ (kv ∈ d /\ fst kv <> k).
Proof.
  induction d as [|[k' v'] d IH]; cbn [dict_set map fst]; intros Hn Hin.
  - apply list_elem_of_singleton in Hin. now left.
  - apply NoDup_cons in Hn as [Hk' Hn].
    destruct (key_eqb k k') eqn:E.
    + apply key_eqb_eq in E. subst k'.
      apply elem_of_cons in Hin as [->|Hin]; [now left|]. right. split; [now right|].
      intros <-. apply Hk'. apply list_elem_of_fmap. now exists kv.
    + assert (Hne : k' <> k).
      { intros ->. assert (key_eqb k k = true) by now apply key_eqb_eq. congruence. }
      apply elem_of_cons in Hin as [->|Hin]; [right; split; [left|exact Hne]|].
      destruct (IH Hn Hin) as [->|[Hd Hf]]; [now left|]. right. split; [now right|exact Hf].
Qed.

Lemma dict_get_elem (k : dedup_key) (v : Format) (d : list (dedup_key * Format)) :
  NoDup (map fst d) -> (k, v) ∈ d -> dict_get k d = Some v.
Proof.
  induction d as [|[k' v'] d IH]; cbn [dict_get map fst]; intros Hn Hin; [inversion Hin|].
  apply NoDup_cons in Hn as [Hk' Hn].
  destruct (key_eqb k k') eqn:E.
  - apply key_eqb_eq in E. subst k'.
    apply elem_of_cons in Hin as [[= ->]|Hin]; [reflexivity|].
    exfalso. apply Hk'. apply list_elem_of_fmap. now exists (k, v).
  - apply elem_of_cons in Hin as [[= -> ->]|Hin]; [|now apply IH].
    assert (key_eqb k' k' = true) by now apply key_eqb_eq. congruence.
Qed.

Lemma kept_from_snoc_other (p : list Format) (v f : Format) :
  key_of f <> key_of v -> kept_from p v -> kept_from (p ++ [f]) v.
Proof.
  intros Hne (pre & post & -> & Hdom). exists pre, (post ++ [f]). split.
  - now rewrite <- app_assoc.
  - intros c' Hc' Hk. apply elem_of_app in Hc' as [Hc'|Hc']; [now apply Hdom|].
    apply list_elem_of_singleton in Hc'. subst c'. contradiction.
Qed.

Lemma kept_from_snoc_dominated (p : list Format) (v f : Format) :
  dominates v f -> kept_from p v -> kept_from (p ++ [f]) v.
Proof.
  intros Hd (pre & post & -> & Hdom). exists pre, (post ++ [f]). split.
  - now rewrite <- app_assoc.
  - intros c' Hc' Hk. apply elem_of_app in Hc' as [Hc'|Hc']; [now apply Hdom|].
    apply list_elem_of_singleton in Hc'. now subst c'.
Qed.

Lemma kept_from_last (p : list Format) (f : Format) : kept_from (p ++ [f]) f.
Proof. exists p, []. split; [reflexivity|]. intros c' Hc'. inversion Hc'. Qed.

Lemma dedupe_step_kept (p : list Format) (d : list (dedup_key * Format)) (f : Format) :
  dict_wf d ->
  Forall (fun kv => kept_from p (snd kv)) d ->
  Forall (fun kv => kept_from (p ++ [f]) (snd kv)) (dedupe_step d f).
Proof.
  intros [Hn Hwf] Hinv. rewrite Forall_forall in Hinv, Hwf.
  assert (Hset : Forall (fun kv => kept_from (p ++ [f]) (snd kv)) (dict_set (key_of f) f d)).
  { apply Forall_forall. intros kv Hkv.
    destruct (dict_set_elem _ _ _ _ Hn Hkv) as [->|[Hd Hne]]; [apply kept_from_last|].
    apply kept_from_snoc_other; [|now apply Hinv].
    rewrite (Hwf kv Hd). congruence. }
  unfold dedupe_step. destruct (dict_get (key_of f) d) as [prev|] eqn:Eget; [|exact Hset].
  destruct (Qlt_bool (filesize prev) (filesize f)) eqn:Efs; [exact Hset|].
  destruct (Qlt_bool (tbr prev) (tbr f)) eqn:Etbr; [exact Hset|].
  apply Qlt_bool_false in Efs, Etbr.
  apply Forall_forall. intros [k v] Hkv. cbn [snd].
  pose proof (Hwf _ Hkv) as Hk. cbn [fst snd] in Hk.
  destruct (decide (key_of f = key_of v)) as [Heq|Hne].
  - assert (v = prev) as ->.
    { rewrite Hk in Heq. subst k. rewrite Heq in Eget.
      rewrite (dict_get_elem _ _ _ Hn Hkv) in Eget. congruence. }
    apply kept_from_snoc_dominated; [now split|]. apply (Hinv _ Hkv).
  - apply kept_from_snoc_other; [exact Hne|]. apply (Hinv _ Hkv).
Qed.

Lemma fold_dedupe_kept (cands p : list Format) (d : list (dedup_key * Format)) :
  dict_wf d ->
  Forall (fun kv => kept_from p (snd kv)) d ->
  Forall (fun kv => kept_from (p ++ cands) (snd kv)) (fold_left dedupe_step cands d).
Proof.
  revert p d. induction cands as [|f cands IH]; intros p d Hwf Hinv; cbn [fold_left].
  - now rewrite app_nil_r.
  - replace (p ++ f :: cands) with ((p ++ [f]) ++ cands) by now rewrite <- app_assoc.
    apply IH; [now apply dedupe_step_wf|now apply dedupe_step_kept].
Qed.

Lemma dict_wf_nil : dict_wf [].
Proof. split; constructor. Qed.

Lemma process_formats_elem (raw_formats : list RawFormat) (f : Format) :
  f ∈ process_formats raw_formats <->
  exists kv : dedup_key * Format,
    kv ∈ dedupe (candidates raw_formats) /\ f = with_label (snd kv).
Proof.
  unfold process_formats. destruct raw_formats as [|r rs].
  - cbn. split; [intros H; inversion H|intros (kv & H & _); inversion H].
  - rewrite list_elem_of_fmap. unfold dict_values. split.
    + intros (c & -> & Hc). rewrite sort_by_key_perm in Hc.
      apply list_elem_of_fmap in Hc as (kv & -> & Hkv). eauto.
    + intros (kv & Hkv & ->). exists (snd kv). split; [reflexivity|].
      rewrite sort_by_key_perm. apply list_elem_of_fmap. eauto.
Qed.

(** X6.  Every entry of the output is a candidate of the input with its
    label added, and no later candidate of the same height and extension
    has a larger file size or a higher bitrate than it. *)
Theorem process_formats_keeps_dominating (raw_formats : list RawFormat) :
  Forall (fun f => exists c : Format,
                     f = with_label c /\ kept_from (candidates raw_formats) c)
         (process_formats raw_formats).
Proof.
  apply Forall_forall. intros f Hf.
  apply process_formats_elem in Hf as (kv & Hkv & ->). exists (snd kv). split; [reflexivity|].
  pose proof (fold_dedupe_kept (candidates raw_formats) [] [] dict_wf_nil (List.Forall_nil _)) as H.
  rewrite Forall_forall in H. exact (H kv Hkv).
Qed.

Lemma dedupe_step_keys (d : list (dedup_key * Format)) (f : Format) (k : dedup_key) :
  k = key_of f \/ k ∈ map fst d -> k ∈ map fst (dedupe_step d f).
Proof.
  assert (Hset : k = key_of f \/ k ∈ map fst d -> k ∈ map fst (dict_set (key_of f) f d)).
  { rewrite dict_set_keys.
    destruct (existsb (key_eqb (key_of f)) (map fst d)) eqn:E.
    - intros [->|H]; [|exact H].
      apply existsb_exists in E as (k' & Hin & Hk'). apply key_eqb_eq in Hk'. subst k'.
      now apply list_elem_of_In.
    - intros [->|H]; apply elem_of_app; [right; left|now left]. }
  unfold dedupe_step. destruct (dict_get (key_of f) d) as [prev|] eqn:Eget; [|exact Hset].
  destruct (Qlt_bool (filesize prev) (filesize f)); [exact Hset|].
  destruct (Qlt_bool (tbr prev) (tbr f)); [exact Hset|].
  intros [->|H]; [|exact H].
  destruct (existsb (key_eqb (key_of f)) (map fst d)) eqn:E.
  - apply existsb_exists in E as (k' & Hin & Hk'). apply key_eqb_eq in Hk'. subst k'.
    now apply list_elem_of_In.
  - apply dict_get_None in E. congruence.
Qed.

Lemma fold_dedupe_keys (cands : list Format) (d : list (dedup_key * Format))
    (k : dedup_key) :
  (exists c : Format, c ∈ cands /\ k = key_of c) \/ k ∈ map fst d ->
  k ∈ map fst (fold_left dedupe_step cands d).
Proof.
  revert d. induction cands as [|f cands IH]; intros d; cbn [fold_left].
  - intros [(c & Hc & _)|H]; [inversion Hc|exact H].
  - intros H. apply IH.
    destruct H as [(c & Hc & ->)|H].
    + apply elem_of_cons in Hc as [->|Hc]; [|left; eauto].
      right. apply dedupe_step_keys. now left.
    + right. apply dedupe_step_keys. now right.
Qed.

Lemma candidates_elem (raw_formats : list RawFormat) (c : Format) :
  c ∈ candidates raw_formats <->
  exists r : RawFormat, r ∈ raw_formats /\ candidate r = Some c.
Proof.
  induction raw_formats as [|r rs IH]; cbn [candidates].
  - split; [intros H; inversion H|intros (r & H & _); inversion H].
  - destruct (candidate r) as [c0|] eqn:E.
    + rewrite elem_of_cons, IH. split.
      * intros [->|(r' & Hr' & Hc)]; [exists r; split; [left|exact E]|].
        exists r'. split; [now right|exact Hc].
      * intros (r' & Hr' & Hc). apply elem_of_cons in Hr' as [->|Hr'].
        -- left. congruence.
        -- right. eauto.
    + rewrite IH. split.
      * intros (r' & Hr' & Hc). exists r'. split; [now right|exact Hc].
      * intros (r' & Hr' & Hc). apply elem_of_cons in Hr' as [->|Hr']; [congruence|eauto].
Qed.

(** X7.  No height and extension is lost: for every input format with an
    allowed extension the output has an entry of the same height (a
    missing height counting as 0) and the same extension. *)
Theorem process_formats_covers (raw_formats : list RawFormat) (r : RawFormat) (c : Format) :
  r ∈ raw_formats -> candidate r = Some c ->
  exists f : Format,
    f ∈ process_formats raw_formats
    /\ height_or_zero f = height_or_zero c /\ ext f = ext c.
Proof.
  intros Hr Hc.
  assert (Hk : key_of c ∈ map fst (dedupe (candidates raw_formats))).
  { apply fold_dedupe_keys. left. exists c. split; [|reflexivity].
    apply candidates_elem. eauto. }
  apply list_elem_of_fmap in Hk as (kv & Hkey & Hkv).
  destruct (fold_dedupe_wf (candidates raw_formats) [] dict_wf_nil) as [_ Hwf].
  rewrite Forall_forall in Hwf. pose proof (Hwf kv Hkv) as Hkof.
  exists (with_label (snd kv)). split.
  - apply process_formats_elem. eauto.
  - rewrite <- Hkey in Hkof. unfold key_of in Hkof. injection Hkof as Hh He.
    split; [exact Hh|exact He].
Qed.

Lemma process_formats_covers_witness :
  exists f : Format,
    f ∈ process_formats [raw_a; raw_b]
    /\ height_or_zero f = 720 /\ ext f = "mp4"%string.
Proof.
  apply (process_formats_covers [raw_a; raw_b] raw_a
           {| format_id := Some "a"%string; height := Some 720; ext := "mp4";
              tbr := 1; filesize := 100; format_note := ""; url := None;
              label := None |}).
  - left.
  - reflexivity.
Defined.

Lemma dict_set_length (k : dedup_key) (v : Format) (d : list (dedup_key * Format)) :
  (length (dict_set k v d) <= S (length d))%nat.
Proof.
  induction d as [|[k' v'] d IH]; cbn [dict_set length]; [lia|].
  destruct (key_eqb k k'); cbn [length]; lia.
Qed.

Lemma fold_dedupe_length (cands : list Format) (d : list (dedup_key * Format)) :
  (length (fold_left dedupe_step cands d) <= length d + length cands)%nat.
Proof.
  revert d. induction cands as [|f cands IH]; intros d; cbn [fold_left length]; [lia|].
  specialize (IH (dedupe_step d f)).
  assert (H : (length (dedupe_step d f) <= S (length d))%nat).
  { unfold dedupe_step. pose proof (dict_set_length (key_of f) f d).
    destruct (dict_get (key_of f) d);
      repeat match goal with |- context [if ?b then _ else _] => destruct b end; lia. }
  lia.
Qed.

Lemma candidates_length (raw_formats : list RawFormat) :
  (length (candidates raw_formats) <= length raw_formats)%nat.
Proof.
  induction raw_formats as [|r rs IH]; cbn [candidates length]; [lia|].
  destruct (candidate r); cbn [length]; lia.
Qed.

(** X22.  Every entry of the output has one of the five allowed
    extensions, and the output has no more entries than the input has
    formats. *)
Theorem process_formats_allowed (raw_formats : list RawFormat) :
  Forall ext_allowed (process_formats raw_formats)
  /\ (length (process_formats raw_formats) <= length raw_formats)%nat.
Proof.
  unfold process_formats. destruct raw_formats as [|r rs]; [split; [constructor|cbn; lia]|].
  split.
  - apply Forall_map. eapply Forall_impl.
    + apply sort_by_key_Forall, dedupe_Forall, (candidates_allowed (r :: rs)).
    + intros f Hf. exact Hf.
  - rewrite length_map, (Permutation_length (sort_by_key_perm _)).
    unfold dict_values. rewrite length_map. unfold dedupe.
    pose proof (fold_dedupe_length (candidates (r :: rs)) []) as H1.
    pose proof (candidates_length (r :: rs)) as H2. cbn [length] in *. lia.
Qed.

(** ** The remaining time [progress_hook] computes *)







(** ** [download_video], once more *)

Lemma store_after_other (vid k : job_id) (records : list ProgressRecord)
    (pd : gmap job_id ProgressRecord) :
  k <> vid -> store_after vid records pd !! k = pd !! k.
Proof.
  intros Hne. revert pd. induction records as [|r records IH]; intros pd; [reflexivity|].
  cbn [store_after fold_left]. fold (store_after vid records (<[vid:=r]> pd)).
  rewrite IH. now apply lookup_insert_ne.
Qed.

Lemma ensure_percent_other (vid k : job_id) (w : world) :
  k <> vid -> progress_data (ensure_percent vid w) !! k = progress_data w !! k.
Proof.
  intros Hne. unfold ensure_percent. destruct (progress_data w !! vid) as [r|]; [|reflexivity].
  destruct (String.eqb (status r) "finished"); [|reflexivity].
  cbn [progress_data]. now apply lookup_insert_ne.
Qed.

Lemma retry_loop_other (j : job) (env : engine) (attempts : list Z) (w : world)
    (k : job_id) :
  k <> job_video_id j ->
  progress_data (snd (retry_loop j env attempts w)) !! k = progress_data w !! k.
Proof.
  intros Hne. revert w. induction attempts as [|a attempts IH]; intros w; [reflexivity|].
  cbn [retry_loop]. rewrite try_body_spec.
  destruct (run_failure j (env a)) as [msg|]; cbn [snd progress_data].
  - destruct (a =? max_attempts); cbn [snd write emit progress_data].
    + rewrite lookup_insert_ne by congruence. now apply store_after_other.
    + rewrite IH. cbn [progress_data write emit].
      rewrite !lookup_insert_ne by congruence. now apply store_after_other.
  - now apply store_after_other.
Qed.

(** X9.  A job writes to the progress store under its own identifier
    only: the record of every other identifier is, after the run, what it
    was before. *)
Theorem download_video_frame (FFMPEG_AVAILABLE : bool) (env : engine) (j : job)
    (w : world) (other : job_id) :
  other <> job_video_id j ->
  progress_data (download_video FFMPEG_AVAILABLE env j w) !! other
  = progress_data w !! other.
Proof.
  intros Hne. unfold download_video.
  destruct (job_extract_audio j && negb FFMPEG_AVAILABLE).
  - cbn [write progress_data]. apply lookup_insert_ne. congruence.
  - pose proof (retry_loop_other j env (range_from_1 max_attempts) w other Hne) as H.
    destruct (retry_loop j env (range_from_1 max_attempts) w) as [[] w']; cbn [snd] in H;
      rewrite ?ensure_percent_other by exact Hne; exact H.
Qed.

Lemma download_video_frame_witness :
  progress_data (download_video true flaky_engine (sample_job false) started_world)
    !! Some "other"%string
  = progress_data started_world !! Some "other"%string.
Proof.
  apply (download_video_frame true flaky_engine (sample_job false) started_world
           (Some "other"%string)).
  discriminate.
Defined.

Lemma body_events_eq (j : job) (run : attempt_run) (a : Z) :
  body_events j run a
  = attempt_start j a
    :: map (EvWrite (job_video_id j)) (hook_records (run_ticks run)) ++ trim_events j run.
Proof.
  unfold body_events, try_body, attempt_start, trim_events, trim_requested,
    original_file, trimmed_file.
  rewrite fold_hooks.
  body_cases j run;
    unfold emit; cbn [progress_data trace fst snd empty_world app];
    repeat rewrite <- app_assoc; rewrite ?app_nil_r; reflexivity.
Qed.

Lemma job_events_missing (FFMPEG_AVAILABLE : bool) (env : engine) (j : job) (w : world) :
  job_extract_audio j && negb FFMPEG_AVAILABLE = true ->
  job_events FFMPEG_AVAILABLE env j w
  = [EvWrite (job_video_id j) (error_record ffmpeg_missing_msg None)].
Proof.
  intros H. unfold job_events, download_video. rewrite H. cbn [write trace].
  apply drop_own_length.
Qed.

(** Every event of a job belongs to the body of one of the three attempts
    or is a write to the store or a sleep. *)
Lemma job_events_classify (FFMPEG_AVAILABLE : bool) (env : engine) (j : job) (w : world)
    (e : event) :
  e ∈ job_events FFMPEG_AVAILABLE env j w ->
  (exists n : Z, 1 <= n <= 3 /\ e ∈ body_events j (env n) n)
  \/ is_bookkeeping e = true.
Proof.
  destruct (job_extract_audio j && negb FFMPEG_AVAILABLE) eqn:Hc.
  { rewrite (job_events_missing _ _ _ _ Hc). intros H.
    apply list_elem_of_singleton in H. subst e. now right. }
  destruct (job_events_shape FFMPEG_AVAILABLE env j w Hc) as (_ & fin & Hfin & Hshape).
  assert (Hf : e ∈ fin -> is_bookkeeping e = true).
  { destruct Hfin as [->| ->]; intros H; [inversion H|].
    apply list_elem_of_singleton in H. now subst e. }
  assert (Hr : forall m i, e ∈ retry_events (job_video_id j) m i -> is_bookkeeping e = true).
  { intros m i H. unfold retry_events in H.
    repeat (apply elem_of_cons in H as [->|H]; [reflexivity|]). inversion H. }
  assert (Hb : forall n, 1 <= n <= 3 -> e ∈ body_events j (env n) n ->
               (exists n : Z, 1 <= n <= 3 /\ e ∈ body_events j (env n) n)
               \/ is_bookkeeping e = true).
  { intros n Hn H. left. eauto. }
  destruct Hshape as [(_ & ->)|[(m1 & _ & _ & ->)|[(m1 & m2 & _ & _ & _ & ->)
                     |(m1 & m2 & m3 & _ & _ & _ & -> & _)]]];
    rewrite ?elem_of_app; intros H;
    repeat match type of H with
           | _ \/ _ => destruct H as [H|H]
           end;
    try (now right; eauto);
    try (apply (Hb 1); [lia|exact H]);
    try (apply (Hb 2); [lia|exact H]);
    try (apply (Hb 3); [lia|exact H]).
  all: apply list_elem_of_singleton in H; subst e; now right.
Qed.

Lemma body_events_trim (j : job) (run : attempt_run) (a : Z) (e : event) :
  e ∈ body_events j run a -> is_trim e = true -> e ∈ trim_events j run.
Proof.
  rewrite body_events_eq. intros H Ht.
  apply elem_of_cons in H as [->|H]; [discriminate|].
  apply elem_of_app in H as [H|H]; [|exact H].
  apply list_elem_of_fmap in H as (r & -> & _). discriminate.
Qed.

(** X10.  Nothing is trimmed unless it was asked for: when the job has no
    start or end marker, or extracts audio, no run of it calls ffmpeg to
    trim or replaces a file. *)
Theorem download_video_no_trim (FFMPEG_AVAILABLE : bool) (env : engine) (j : job)
    (w : world) :
  trim_requested j = false ->
  Forall (fun e => is_trim e = false) (job_events FFMPEG_AVAILABLE env j w).
Proof.
  intros Hreq. apply Forall_forall. intros e He.
  destruct (is_trim e) eqn:Ht; [|reflexivity]. exfalso.
  destruct (job_events_classify _ _ _ _ _ He) as [(n & _ & Hb)|Hk].
  - apply (body_events_trim _ _ _ _ Hb) in Ht. unfold trim_events in Ht.
    rewrite Hreq in Ht. destruct (run_download (env n)); inversion Ht.
  - destruct e; discriminate.
Qed.

Lemma download_video_no_trim_witness :
  Forall (fun e => is_trim e = false)
    (job_events true steady_engine (sample_job false) empty_world).
Proof.
  apply (download_video_no_trim true steady_engine (sample_job false) empty_world).
  reflexivity.
Defined.

(** X11.  A file is replaced only by the output of a trim that went
    through: every replacement a job makes moves its trimmed file onto its
    downloaded file, in an attempt whose download returned and whose
    ffmpeg run reported success. *)
Theorem download_video_replace (FFMPEG_AVAILABLE : bool) (env : engine) (j : job)
    (w : world) (src dst : string) :
  EvReplace src dst ∈ job_events FFMPEG_AVAILABLE env j w ->
  src = trimmed_file j /\ dst = original_file j
  /\ trim_requested j = true
  /\ exists n : Z,
       1 <= n <= 3
       /\ (exists u : unit, run_download (env n) = Returned u)
       /\ run_trim (env n) = Returned true.
Proof.
  intros He.
  destruct (job_events_classify _ _ _ _ _ He) as [(n & Hn & Hb)|Hk]; [|discriminate].
  apply body_events_trim in Hb; [|reflexivity]. unfold trim_events in Hb.
  destruct (run_download (env n)) as [u|msg] eqn:Ed; [|inversion Hb].
  destruct (trim_requested j) eqn:Er; [|inversion Hb].
  apply elem_of_cons in Hb as [Hb|Hb]; [discriminate|].
  destruct (run_trim (env n)) as [[|]|msg] eqn:Et; try (now inversion Hb).
  apply list_elem_of_singleton in Hb. injection Hb as -> ->.
  split; [reflexivity|]. split; [reflexivity|]. split; [reflexivity|].
  exists n. split; [lia|]. split; [now exists u|exact Et].
Qed.

Lemma download_video_replace_witness :
  trimmed_file trim_job = trimmed_file trim_job
  /\ original_file trim_job = original_file trim_job
  /\ trim_requested trim_job = true
  /\ exists n : Z,
       1 <= n <= 3
       /\ (exists u : unit, run_download (steady_engine n) = Returned u)
       /\ run_trim (steady_engine n) = Returned true.
Proof.
  apply (download_video_replace true steady_engine trim_job empty_world
           (trimmed_file trim_job) (original_file trim_job)).
  vm_compute. do 4 right. left.
Defined.

Lemma sleeps_app (l1 l2 : list event) : sleeps (l1 ++ l2) = sleeps l1 ++ sleeps l2.
Proof. unfold sleeps. apply omap_app. Qed.

Lemma body_events_sleeps (j : job) (run : attempt_run) (a : Z) :
  sleeps (body_events j run a) = [].
Proof.
  rewrite body_events_eq. unfold sleeps. cbn [omap list_omap].
  rewrite omap_app.
  assert (H1 : forall l, omap (fun e => match e with EvSleep s => Some s | _ => None end)
                      (map (EvWrite (job_video_id j)) l) = []).
  { induction l as [|r l IH]; [reflexivity|exact IH]. }
  rewrite H1. unfold trim_events.
  destruct (run_download run); [|reflexivity].
  destruct (trim_requested j); [|reflexivity].
  destruct (run_trim run) as [[|]|]; reflexivity.
Qed.

Lemma fin_sleeps (vid : job_id) (fin : list event) :
  fin = [] \/ fin = [EvSetPercent vid 100] ->
  sleeps fin = [] /\ filter is_download fin = [].
Proof. intros [->| ->]; split; reflexivity. Qed.

(** X12.  A job sleeps only between attempts, 3 seconds after the first
    failure and 6 after the second: with [n] calls of the downloader the
    sleeps are the first [n - 1] of 3 and 6, never more than 9 seconds in
    all. *)
Theorem download_video_backoff (FFMPEG_AVAILABLE : bool) (env : engine) (j : job)
    (w : world) :
  let evs := job_events FFMPEG_AVAILABLE env j w in
  sleeps evs = take (length (filter is_download evs) - 1) [3; 6].
Proof.
  intros evs. subst evs.
  destruct (job_extract_audio j && negb FFMPEG_AVAILABLE) eqn:Hc.
  { now rewrite (job_events_missing _ _ _ _ Hc). }
  destruct (job_events_shape FFMPEG_AVAILABLE env j w Hc) as (_ & fin & Hfin & Hshape).
  destruct (fin_sleeps _ _ Hfin) as [Hfs Hfd].
  destruct Hshape as [(_ & ->)|[(m1 & _ & _ & ->)|[(m1 & m2 & _ & _ & _ & ->)
                     |(m1 & m2 & m3 & _ & _ & _ & -> & _)]]];
    rewrite ?sleeps_app, ?filter_app, ?body_events_sleeps, ?body_downloads,
      ?retry_downloads, ?write_downloads, ?Hfs, ?Hfd;
    reflexivity.
Qed.

(** ** [start_download], once more *)

(** X13.  A start or end marker that is given and not valid stops the
    handler before it reads the session: it flashes one message, goes back
    to the selection page, leaves the progress store as it is and starts
    no job, whether or not the file exists or the session has a title. *)
Theorem start_download_rejects_marker (video_store : gmap job_id (list Format))
    (file_exists : string -> bool) (req : request) (w : world) :
  marker_ok (form_start_time req) && marker_ok (form_end_time req) = false ->
  exists msg : string,
    start_download video_store file_exists req w
    = (RedirectSelectFormat,
       {| progress_data := progress_data w; trace := trace w ++ [EvFlash msg] |}).
Proof.
  unfold start_download, marker_ok. intros H.
  destruct (truthy_str (form_start_time req));
    destruct (valid_time_format (form_start_time req)); cbn [negb andb orb] in *;
    try (eexists; reflexivity);
    destruct (truthy_str (form_end_time req));
    destruct (valid_time_format (form_end_time req)); cbn [negb andb orb] in *;
    try discriminate; eexists; reflexivity.
Qed.

Lemma start_download_rejects_marker_witness :
  exists msg : string,
    start_download ∅ sample_disk (sample_request (Some "soon"%string)) empty_world
    = (RedirectSelectFormat,
       {| progress_data := progress_data empty_world;
          trace := trace empty_world ++ [EvFlash msg] |}).
Proof.
  apply (start_download_rejects_marker ∅ sample_disk (sample_request (Some "soon"%string))
           empty_world).
  reflexivity.
Defined.

(** X14.  When the handler sends the client to the progress page, it has
    stored the record [starting] with percent 0 for the job and started
    one job, as the last thing it did.  That job carries the markers of
    the form, which have passed the check or are empty; the file named in
    the redirect did not exist; and unless the job extracts audio, the
    file the job trims is the file named in the redirect. *)
Theorem start_download_spawns_job (video_store : gmap job_id (list Format))
    (file_exists : string -> bool) (req : request) (w w' : world)
    (vid : job_id) (filename : string) :
  start_download video_store file_exists req w = (RedirectProgress vid filename, w') ->
  exists title : string,
    let j := job_of_request video_store req title in
    session_video_title req = Some title
    /\ vid = job_video_id j
    /\ filename = output_filename video_store req title
    /\ file_exists (path_join DOWNLOAD_FOLDER filename) = false
    /\ progress_data w' = <[vid := starting_record]> (progress_data w)
    /\ trace w' = trace w ++ [EvWrite vid starting_record; EvSpawn j]
    /\ marker_ok (job_start_time j) && marker_ok (job_end_time j) = true
    /\ (job_extract_audio j = false -> original_file j = path_join DOWNLOAD_FOLDER filename).
Proof.
  unfold start_download, marker_ok.
  destruct (truthy_str (form_start_time req) && negb (valid_time_format (form_start_time req)))
    eqn:Es; [discriminate|].
  destruct (truthy_str (form_end_time req) && negb (valid_time_format (form_end_time req)))
    eqn:Ee; [discriminate|].
  destruct (session_video_title req) as [title|]; [|discriminate].
  destruct (file_exists _) eqn:Ex; [discriminate|].
  intros [= <- <- <-]. exists title. cbn zeta.
  split; [reflexivity|]. split; [reflexivity|]. split; [reflexivity|].
  split; [exact Ex|]. split; [reflexivity|].
  split; [unfold write, emit; cbn [trace progress_data]; now rewrite <- app_assoc|].
  split.
  - cbn [job_of_request job_start_time job_end_time].
    destruct (truthy_str (form_start_time req)), (valid_time_format (form_start_time req)),
      (truthy_str (form_end_time req)), (valid_time_format (form_end_time req));
      cbn in *; congruence.
  - cbn [job_of_request job_extract_audio]. intros Ha.
    unfold original_file, output_filename. cbn [job_of_request job_title job_height job_format_id].
    now rewrite Ha.
Qed.

Lemma start_download_spawns_job_witness :
  exists title : string,
    let req := sample_request (Some "1:23"%string) in
    let j := job_of_request ∅ req title in
    let filename := output_filename ∅ req "A title" in
    let w' := {| progress_data := <[Some "vid1"%string := starting_record]> ∅;
                 trace := [EvWrite (Some "vid1"%string) starting_record;
                           EvSpawn (job_of_request ∅ req "A title")] |} in
    session_video_title req = Some title
    /\ Some "vid1"%string = job_video_id j
    /\ filename = output_filename ∅ req title
    /\ empty_disk (path_join DOWNLOAD_FOLDER filename) = false
    /\ progress_data w' = <[Some "vid1"%string := starting_record]> (progress_data empty_world)
    /\ trace w' = trace empty_world ++ [EvWrite (Some "vid1"%string) starting_record; EvSpawn j]
    /\ marker_ok (job_start_time j) && marker_ok (job_end_time j) = true
    /\ (job_extract_audio j = false -> original_file j = path_join DOWNLOAD_FOLDER filename).
Proof.
  apply (start_download_spawns_job ∅ empty_disk (sample_request (Some "1:23"%string))
           empty_world).
  reflexivity.
Defined.



(** ** [index] and [select_format] *)

(** X16.  What [index] stores is what [select_format] shows: after a POST
    for which yt-dlp returns an info with a non-empty id, the selection
    page renders the processed formats, the title, the thumbnail and the
    duration of that info, and changes nothing. *)
Theorem index_then_select (extract_info : string -> outcome VideoInfo)
    (url v : string) (info : VideoInfo) (st : app_state) :
  str_empty url = false ->
  extract_info url = Returned info ->
  info_id info = Some v ->
  str_empty v = false ->
  let '(p, st') := index extract_info (Some (Some url)) st in
  p = RedirectSelect
  /\ select_format false st'
     = (RenderSelectFormat (process_formats (info_formats info)) (info_title info)
          (info_thumbnail info) (info_duration info) v, st').
Proof.
  intros Hu He Hid Hv. unfold index. rewrite Hu, He. split; [reflexivity|].
  unfold select_format. cbn [app_session sess_video_id app_store]. rewrite Hid, Hv.
  now rewrite lookup_insert_eq.
Qed.

Lemma index_then_select_witness :
  let '(p, st') := index (sample_extract (Some "vid1"%string))
                     (Some (Some "https://example.org/v"%string)) empty_app in
  p = RedirectSelect
  /\ select_format false st'
     = (RenderSelectFormat (process_formats (info_formats (sample_info (Some "vid1"%string))))
          (info_title (sample_info (Some "vid1"%string)))
          (info_thumbnail (sample_info (Some "vid1"%string)))
          (info_duration (sample_info (Some "vid1"%string))) "vid1", st').
Proof.
  apply (index_then_select (sample_extract (Some "vid1"%string))
           "https://example.org/v" "vid1" (sample_info (Some "vid1"%string)) empty_app);
    reflexivity.
Defined.

(** X17.  A POST that fails, for a missing or empty URL or because yt-dlp
    raises, goes back to the index page with one more flashed message and
    leaves the session and the store as they were, so that the selection
    page shows what it showed before. *)
Theorem index_failure_keeps_state (extract_info : string -> outcome VideoInfo)
    (form_url : option string) (st : app_state) :
  falsy_url form_url = true
  \/ (exists url msg : string, form_url = Some url /\ extract_info url = Raised msg) ->
  let '(p, st') := index extract_info (Some form_url) st in
  p = RedirectIndex
  /\ app_session st' = app_session st
  /\ app_store st' = app_store st
  /\ (exists msg : string, app_flashes st' = app_flashes st ++ [msg])
  /\ fst (select_format false st') = fst (select_format false st).
Proof.
  assert (Hflash : forall msg,
             let st' := flash msg st in
             RedirectIndex = RedirectIndex
             /\ app_session st' = app_session st
             /\ app_store st' = app_store st
             /\ (exists m : string, app_flashes st' = app_flashes st ++ [m])
             /\ fst (select_format false st') = fst (select_format false st)).
  { intros msg. cbn zeta. repeat split; [eexists; reflexivity|].
    unfold select_format, flash. cbn [app_session app_store].
    destruct (sess_video_id (app_session st)) as [v|]; [|reflexivity].
    destruct (str_empty v); [reflexivity|].
    destruct (app_store st !! Some v); reflexivity. }
  unfold index, falsy_url, truthy_str.
  intros [H|(url & msg & -> & He)].
  - destruct form_url as [url|]; [|apply Hflash].
    apply negb_true_iff, negb_false_iff in H. rewrite H. apply Hflash.
  - destruct (str_empty url); [apply Hflash|]. rewrite He. apply Hflash.
Qed.

Lemma index_failure_keeps_state_witness :
  let '(p, st') := index failing_extract (Some (Some "https://example.org/v"%string))
                     empty_app in
  p = RedirectIndex
  /\ app_session st' = app_session empty_app
  /\ app_store st' = app_store empty_app
  /\ (exists msg : string, app_flashes st' = app_flashes empty_app ++ [msg])
  /\ fst (select_format false st') = fst (select_format false empty_app).
Proof.
  apply (index_failure_keeps_state failing_extract (Some "https://example.org/v"%string)
           empty_app).
  right. exists "https://example.org/v"%string, "no such video"%string. split; reflexivity.
Defined.

(** X18.  A video whose info carries no id, or an empty one, cannot be
    selected: [index] stores it and redirects to the selection page, which
    sends the client back to the index page with a message. *)
Theorem index_without_id (extract_info : string -> outcome VideoInfo)
    (url : string) (info : VideoInfo) (st : app_state) :
  str_empty url = false ->
  extract_info url = Returned info ->
  truthy_str (info_id info) = false ->
  let '(p, st') := index extract_info (Some (Some url)) st in
  p = RedirectSelect
  /\ select_format false st'
     = (RedirectIndex, flash "No video selected. Paste a URL first." st').
Proof.
  intros Hu He Hid. unfold index. rewrite Hu, He. split; [reflexivity|].
  unfold select_format. cbn [app_session sess_video_id].
  unfold truthy_str in Hid. destruct (info_id info) as [v|]; [|reflexivity].
  apply negb_false_iff in Hid. now rewrite Hid.
Qed.

Lemma index_without_id_witness :
  let '(p, st') := index (sample_extract None) (Some (Some "https://example.org/v"%string))
                     empty_app in
  p = RedirectSelect
  /\ select_format false st'
     = (RedirectIndex, flash "No video selected. Paste a URL first." st').
Proof.
  apply (index_without_id (sample_extract None) "https://example.org/v"
           (sample_info None) empty_app); reflexivity.
Defined.

(** ** The preview generator *)

Lemma generate_preview_ffmpeg_spec (FFMPEG_AVAILABLE : bool) (FFMPEG_PATH : option string)
    (env : preview_env) (stream_url out_path : string) (duration : Z) (w : preview_world) :
  let '(ok, w') := generate_preview_ffmpeg FFMPEG_AVAILABLE FFMPEG_PATH env stream_url
                     out_path duration w in
  pv_store w' = pv_store w
  /\ (pv_files w' = pv_files w \/ pv_files w' = {[out_path]} ∪ pv_files w)
  /\ (FFMPEG_AVAILABLE = false -> ok = false /\ w' = w).
Proof.
  unfold generate_preview_ffmpeg. destruct FFMPEG_AVAILABLE; cbn [negb].
  - destruct (ffmpeg_leaves_file env _), (ffmpeg_run env _); cbn;
      (split; [reflexivity|]); (split; [auto|discriminate]).
  - auto.
Qed.

Lemma generate_preview_store (FFMPEG_AVAILABLE : bool) (FFMPEG_PATH : option string)
    (env : preview_env) (video_id format_id : string) (w : preview_world) :
  let '(r, w') := generate_preview FFMPEG_AVAILABLE FFMPEG_PATH env video_id format_id w in
  pv_store w' = pv_store w
  /\ (forall fname : string,
        r = Some fname ->
        is_Some (pv_store w !! Some video_id) /\ str_empty fname = false).
Proof.
  unfold generate_preview.
  destruct (pv_store w !! Some video_id) as [store|] eqn:Es; [|split; [reflexivity|discriminate]].
  destruct (find_format _ _) as [fmt|]; [|split; [reflexivity|discriminate]].
  set (sw := if truthy_str (url fmt) then (url fmt, w) else _).
  assert (Hsw : pv_store (snd sw) = pv_store w).
  { subst sw. destruct (truthy_str (url fmt)); [reflexivity|].
    destruct (re_extract env _) as [fs|]; [|reflexivity].
    destruct (find_raw_format fs format_id); reflexivity. }
  destruct sw as [stream_url w1]. cbn [snd] in Hsw.
  destruct (truthy_str stream_url); cbn [negb]; [|split; [exact Hsw|discriminate]].
  set (fname0 := (_ ++ "_" ++ format_id ++ "_preview.mp4")%string).
  assert (Hne : str_empty fname0 = false).
  { subst fname0. apply append_nonempty, append_nonempty, append_nonempty. reflexivity. }
  assert (Hsome : forall fname : string,
             Some fname0 = Some fname ->
             is_Some (Some store) /\ str_empty fname = false).
  { intros fname [= <-]. split; [eauto|exact Hne]. }
  destruct (file_exists_in w1 _); [split; [exact Hsw|exact Hsome]|].
  pose proof (generate_preview_ffmpeg_spec FFMPEG_AVAILABLE FFMPEG_PATH env
                (fstr stream_url) (path_join PREVIEW_FOLDER fname0) 10 w1) as Hf.
  destruct (generate_preview_ffmpeg _ _ _ _ _ _ _) as [ok w2].
  destruct Hf as (Hst & _ & _).
  destruct ok; [split; [congruence|exact Hsome]|].
  split; [|discriminate].
  destruct (file_exists_in w2 _); [|congruence].
  destruct (remove_raises env _); cbn [pv_store pv_emit]; congruence.
Qed.

(** X19.  A preview that has been answered as ready stays ready: the
    same request, made again in the state the first one left, is answered
    with the same file name and does nothing, whatever has become of
    ffmpeg and of the network. *)
Theorem preview_route_memo (FFMPEG_AVAILABLE : bool) (FFMPEG_PATH : option string)
    (env : preview_env) (video_id format_id fname : string) (w w' : preview_world) :
  generate_preview_route FFMPEG_AVAILABLE FFMPEG_PATH env video_id format_id w
  = (PreviewReady fname, w') ->
  forall (FFMPEG_AVAILABLE' : bool) (FFMPEG_PATH' : option string) (env' : preview_env),
    generate_preview_route FFMPEG_AVAILABLE' FFMPEG_PATH' env' video_id format_id w'
    = (PreviewReady fname, w').
Proof.
  unfold generate_preview_route at 1.
  set (recorded := match _ !! format_id with Some f0 => _ | None => None end).
  destruct recorded as [fname0|] eqn:Er.
  - intros [= <- <-] a' p' e'. unfold generate_preview_route.
    fold recorded. now rewrite Er.
  - pose proof (generate_preview_store FFMPEG_AVAILABLE FFMPEG_PATH env video_id format_id w)
      as Hs.
    destruct (generate_preview _ _ _ _ _ _) as [[f|] w1]; [|discriminate].
    destruct Hs as [Hst Hsome]. destruct (Hsome f eq_refl) as [[store Hstore] Hne].
    rewrite Hne. intros [= <- <-] a' p' e'.
    unfold generate_preview_route. cbn [pv_store].
    rewrite lookup_alter_eq, Hst, Hstore. cbn [fmap option_fmap option_map set_preview entry_previews].
    rewrite lookup_insert_eq, Hne. reflexivity.
Qed.

Lemma preview_route_memo_witness :
  generate_preview_route false None bad_ffmpeg "vid1" "22"
    (snd (generate_preview_route true None good_ffmpeg "vid1" "22" sample_preview_world))
  = (PreviewReady "A title_22_preview.mp4",
     snd (generate_preview_route true None good_ffmpeg "vid1" "22" sample_preview_world)).
Proof.
  apply (preview_route_memo true None good_ffmpeg "vid1" "22" "A title_22_preview.mp4"
           sample_preview_world).
  vm_compute. reflexivity.
Defined.

(** X20.  A preview that fails leaves no file behind: when
    [generate_preview] returns [None] and [os.remove] does not raise, the
    files that exist afterwards are those that existed before. *)
Theorem generate_preview_failure_cleans_up (FFMPEG_AVAILABLE : bool)
    (FFMPEG_PATH : option string) (env : preview_env) (video_id format_id : string)
    (w w' : preview_world) :
  (forall path : string, remove_raises env path = false) ->
  generate_preview FFMPEG_AVAILABLE FFMPEG_PATH env video_id format_id w = (None, w') ->
  pv_files w' = pv_files w.
Proof.
  intros Hrm. unfold generate_preview.
  destruct (pv_store w !! Some video_id) as [store|]; [|now intros [= <-]].
  destruct (find_format _ _) as [fmt|]; [|now intros [= <-]].
  set (sw := if truthy_str (url fmt) then (url fmt, w) else _).
  assert (Hsw : pv_files (snd sw) = pv_files w).
  { subst sw. destruct (truthy_str (url fmt)); [reflexivity|].
    destruct (re_extract env _) as [fs|]; [|reflexivity].
    destruct (find_raw_format fs format_id); reflexivity. }
  destruct sw as [stream_url w1]. cbn [snd] in Hsw.
  destruct (truthy_str stream_url); cbn [negb]; [|intros [= <-]; exact Hsw].
  set (path := path_join PREVIEW_FOLDER _).
  unfold file_exists_in at 1.
  destruct (bool_decide (path ∈ pv_files w1)) eqn:Ex; [discriminate|].
  apply bool_decide_eq_false in Ex.
  pose proof (generate_preview_ffmpeg_spec FFMPEG_AVAILABLE FFMPEG_PATH env
                (fstr stream_url) path 10 w1) as Hf.
  destruct (generate_preview_ffmpeg _ _ _ _ _ _ _) as [ok w2].
  destruct Hf as (_ & Hfiles & _).
  destruct ok; [discriminate|].
  unfold file_exists_in. rewrite Hrm.
  destruct (bool_decide (path ∈ pv_files w2)) eqn:Ex2; intros [= <-]; cbn [pv_files pv_emit].
  - apply bool_decide_eq_true in Ex2. rewrite <- Hsw.
    destruct Hfiles as [Hfiles|Hfiles]; rewrite Hfiles in *; [contradiction|].
    apply set_eq. intros x.
    rewrite elem_of_difference, elem_of_union, !elem_of_singleton. split.
    + intros [[->|Hx] Hn]; [contradiction|exact Hx].
    + intros Hx. split; [now right|]. intros ->. contradiction.
  - apply bool_decide_eq_false in Ex2. rewrite <- Hsw.
    destruct Hfiles as [Hfiles|Hfiles]; rewrite Hfiles in *; [reflexivity|].
    exfalso. apply Ex2. apply elem_of_union. left. now apply elem_of_singleton.
Qed.

Lemma generate_preview_failure_cleans_up_witness :
  pv_files (snd (generate_preview true None bad_ffmpeg "vid1" "22" sample_preview_world))
  = pv_files sample_preview_world.
Proof.
  apply (generate_preview_failure_cleans_up true None bad_ffmpeg "vid1" "22"
           sample_preview_world).
  - reflexivity.
  - vm_compute. reflexivity.
Defined.

(** X21.  Without ffmpeg a preview is served only from disk: when
    ffmpeg is not available, [generate_preview] runs no command and
    changes no file and no entry of the store, at most it asks yt-dlp for
    the page once more, and a name it returns is that of a file that is
    already in the previews folder. *)
Theorem generate_preview_without_ffmpeg (FFMPEG_PATH : option string) (env : preview_env)
    (video_id format_id : string) (w : preview_world) :
  let '(r, w') := generate_preview false FFMPEG_PATH env video_id format_id w in
  pv_files w' = pv_files w
  /\ pv_store w' = pv_store w
  /\ (exists evs : list preview_event,
        pv_trace w' = pv_trace w ++ evs /\ Forall (fun e => is_extract e = true) evs)
  /\ (forall fname : string,
        r = Some fname -> path_join PREVIEW_FOLDER fname ∈ pv_files w).
Proof.
  assert (H0 : forall w0 : preview_world,
             pv_files w0 = pv_files w0 /\ pv_store w0 = pv_store w0
             /\ (exists evs, pv_trace w0 = pv_trace w0 ++ evs
                             /\ Forall (fun e => is_extract e = true) evs)
             /\ (forall fname : string,
                   @None string = Some fname ->
                   path_join PREVIEW_FOLDER fname ∈ pv_files w0)).
  { intros w0. repeat split; [|discriminate]. exists []. now rewrite app_nil_r. }
  unfold generate_preview.
  destruct (pv_store w !! Some video_id) as [store|]; [|apply H0].
  destruct (find_format _ _) as [fmt|]; [|apply H0].
  set (sw := if truthy_str (url fmt) then (url fmt, w) else _).
  assert (Hsw : pv_files (snd sw) = pv_files w /\ pv_store (snd sw) = pv_store w
                /\ exists evs, pv_trace (snd sw) = pv_trace w ++ evs
                               /\ Forall (fun e => is_extract e = true) evs).
  { assert (He : forall u, exists evs,
                 pv_trace (pv_emit (PvExtract u) w) = pv_trace w ++ evs
                 /\ Forall (fun e => is_extract e = true) evs).
    { intros u. exists [PvExtract u]. split; [reflexivity|]. now repeat constructor. }
    subst sw. destruct (truthy_str (url fmt)).
    - repeat split. exists []. now rewrite app_nil_r.
    - destruct (re_extract env _) as [fs|]; [|repeat split; apply He].
      destruct (find_raw_format fs format_id); repeat split; apply He. }
  destruct sw as [stream_url w1]. cbn [snd] in Hsw. destruct Hsw as (Hfl & Hst & Hev).
  destruct (truthy_str stream_url); cbn [negb];
    [|split; [exact Hfl|]; split; [exact Hst|]; split; [exact Hev|discriminate]].
  set (fname0 := (_ ++ "_" ++ format_id ++ "_preview.mp4")%string).
  unfold file_exists_in at 1.
  destruct (bool_decide (path_join PREVIEW_FOLDER fname0 ∈ pv_files w1)) eqn:Ex.
  { apply bool_decide_eq_true in Ex.
    split; [exact Hfl|]. split; [exact Hst|]. split; [exact Hev|].
    intros fname [= <-]. now rewrite <- Hfl. }
  unfold generate_preview_ffmpeg. cbn [negb]. unfold file_exists_in. rewrite Ex.
  split; [exact Hfl|]. split; [exact Hst|]. split; [exact Hev|discriminate].
Qed.
